(** * Time coach: free-slot computation and greedy task packing

    A shallow embedding of the scheduling core of [time_coach.py]
    ([find_free_slots], [get_prioritized_tasks], [schedule_tasks],
    [toggle_task_completion] and the task-store helpers around them),
    followed by the properties of that code.

    Conventions of the embedding:
    - an aware [datetime] is the instant it denotes, an integer number of
      microseconds ([Z]); comparison and subtraction of aware datetimes
      in Python are comparison and subtraction of instants;
    - a [timedelta] is a number of microseconds;
    - datetimes and timedeltas are taken inside the ranges Python can
      represent: the [OverflowError] of a [timedelta] beyond 999999999
      days, or of a sum beyond the year 9999, has no counterpart here;
    - [isoformat()] strings stored in a task are represented by the
      instant they print ([option Z], [None] for Python's [None]);
    - a Python [dict] with string keys is a [gmap string _]; the task
      dictionaries, which all carry the same eight keys, are a record;
    - a list of task dictionaries is a [list task]; the dictionaries are
      shared between [st.session_state.tasks] and the list returned by
      [get_prioritized_tasks], so that list is modelled as a list of
      positions into the store and the packing loop reads and writes the
      store through them. *)

From stdpp Require Import base option list gmap strings sorting.
From Stdlib Require Import ZArith Lia.

Open Scope Z_scope.

(** ** Time *)

Definition interval : Type := Z * Z.

(** [timedelta(minutes=m)] *)
Definition timedelta_minutes (m : Z) : Z := m * 60000000.

(** [timedelta(hours=h)], used for [datetime.time(h, 0)] on a given day *)
Definition timedelta_hours (h : Z) : Z := h * 3600000000.

(** Two half-open spans [[s1, e1)] and [[s2, e2)] share an instant. *)
Definition overlaps (a b : interval) : bool :=
  Z.max a.1 b.1 <? Z.min a.2 b.2.

(** The instant [t] lies in the half-open span [[s, e)]. *)
Definition within (t : Z) (a : interval) : Prop := a.1 ≤ t < a.2.

Definition covered (t : Z) (l : list interval) : Prop :=
  Exists (within t) l.

(** ** Python's stable sort

    [list.sort] and [sorted] are stable: elements with equal keys keep
    their input order, also with [reverse=True].  For a total preorder
    the stable sort of a list is unique, so insertion from the right,
    placing an element in front of the first one it is not greater than,
    computes the same list as Python does.  [le x y] reads "x may stand
    before y". *)

Section stable_sort.
Context {A : Type} (le : A → A → bool).

Fixpoint insert_sorted (x : A) (l : list A) : list A :=
  match l with
  | [] => [x]
  | y :: l' => if le x y then x :: y :: l' else y :: insert_sorted x l'
  end.

Definition stable_sort (l : list A) : list A :=
  foldr insert_sorted [] l.
End stable_sort.

(** Tuple comparison [(a1, a2) <= (b1, b2)] of Python. *)
Definition tuple_le (a b : Z * Z) : bool :=
  (a.1 <? b.1) || ((a.1 =? b.1) && (a.2 <=? b.2)).

(** ** Calendar events *)

(** An event of the calendar feed: [event['start']] and [event['end']]
    are dictionaries, holding ['dateTime'] for a timed event and only
    ['date'] for an all-day event. *)
Record event := mkEvent {
  ev_start : gmap string string;
  ev_end : gmap string string
}.

(** Truth value of [d.get('dateTime')]: [None] and the empty string are
    false. *)
Definition truthy (o : option string) : bool :=
  match o with
  | Some s => if decide (s = EmptyString) then false else true
  | None => false
  end.

(** [s[:-1]] *)
Fixpoint drop_last (s : string) : string :=
  match s with
  | EmptyString => EmptyString
  | String c EmptyString => EmptyString
  | String c s' => String c (drop_last s')
  end.

(** ** find_free_slots *)

(** One iteration of the loop over [busy_slots] (lines 114-117): the
    state is [(free_slots, current)]. *)
Definition sweep_step (st : list interval * Z) (b : interval)
  : list interval * Z :=
  let '(free_slots, current) := st in
  let '(start, end_) := b in
  (if current <? start then free_slots ++ [(current, start)] else free_slots,
   Z.max current end_).

(** Lines 110-122 of [find_free_slots], from the extracted busy list on:
    the spec's [compute_free_slots]. *)
Definition compute_free_slots (busy_slots : list interval)
    (day_start day_end : Z) : list interval :=
  let busy_slots := stable_sort tuple_le busy_slots in
  let '(free_slots, current) :=
    foldl sweep_step ([], day_start) busy_slots in
  if current <? day_end then free_slots ++ [(current, day_end)]
  else free_slots.

Section events.
(** [datetime.fromisoformat(s).astimezone(tz)]: the instant of the
    naive local time written in [s]; [None] when [fromisoformat]
    raises [ValueError]. *)
Variable fromisoformat : string → option Z.

(** Lines 101-108: the busy list, or [None] when a conversion raised. *)
Fixpoint busy_slots_of (events : list event) : option (list interval) :=
  match events with
  | [] => Some []
  | event :: events' =>
      let start_str := ev_start event !! "dateTime" in
      let end_str := ev_end event !! "dateTime" in
      if truthy start_str && truthy end_str then
        start ← start_str ≫= (λ s, fromisoformat (drop_last s));
        end_ ← end_str ≫= (λ s, fromisoformat (drop_last s));
        busy_slots ← busy_slots_of events';
        Some ((start, end_) :: busy_slots)
      else busy_slots_of events'
  end.

Definition find_free_slots (events : list event) (day_start day_end : Z)
  : option (list interval) :=
  busy_slots ← busy_slots_of events;
  Some (compute_free_slots busy_slots day_start day_end).
End events.

(** ** Tasks *)

(** The dictionary built by [add_task]. *)
Record task := mkTask {
  title : string;
  priority : Z;
  duration : Z;
  category : string;
  scheduled : bool;
  start_time : option Z;
  end_time : option Z;
  completed : bool
}.

(** [task["completed"] = b] *)
Definition set_completed (b : bool) (t : task) : task :=
  mkTask (title t) (priority t) (duration t) (category t)
         (scheduled t) (start_time t) (end_time t) b.

(** Lines 148-150: the three assignments of the packing loop. *)
Definition set_schedule (start finish : Z) (t : task) : task :=
  mkTask (title t) (priority t) (duration t) (category t)
         true (Some start) (Some finish) (completed t).

(** The span a task occupies once it has both times. *)
Definition reserved (t : task) : option interval :=
  start ← start_time t; finish ← end_time t; Some (start, finish).

(** ** Application state *)

Inductive message :=
  | Warning (text : string)
  | Success (text : string).

(** [st.session_state], the module-level [calendar_events], the decoded
    contents of [tasks.json] ([None] while the file does not exist) and
    the messages shown so far. *)
Record state := mkState {
  tasks : list task;
  day_start_hour : Z;
  day_end_hour : Z;
  buffer_minutes : Z;
  calendar_events : list event;
  tasks_file : option (list task);
  shown : list message
}.

Definition set_tasks (l : list task) (w : state) : state :=
  mkState l (day_start_hour w) (day_end_hour w) (buffer_minutes w)
          (calendar_events w) (tasks_file w) (shown w).

Definition save_tasks (w : state) : state :=
  mkState (tasks w) (day_start_hour w) (day_end_hour w) (buffer_minutes w)
          (calendar_events w) (Some (tasks w)) (shown w).

Definition show (m : message) (w : state) : state :=
  mkState (tasks w) (day_start_hour w) (day_end_hour w) (buffer_minutes w)
          (calendar_events w) (tasks_file w) (shown w ++ [m]).

(** [l[index]] of Python: a negative index counts from the end, an index
    out of range raises [IndexError] ([None]). *)
Definition list_index {A} (l : list A) (index : Z) : option nat :=
  let n := Z.of_nat (length l) in
  if (0 <=? index) && (index <? n) then Some (Z.to_nat index)
  else if (- n <=? index) && (index <? 0) then Some (Z.to_nat (n + index))
  else None.

Definition add_task (title : string) (priority duration_minutes : Z)
    (category : string) (w : state) : state :=
  let task :=
    mkTask title priority duration_minutes category false None None false in
  save_tasks (set_tasks (tasks w ++ [task]) w).

Definition toggle_task_completion (index : Z) (w : state) : option state :=
  i ← list_index (tasks w) index;
  task ← tasks w !! i;
  Some (save_tasks
          (set_tasks (<[i := set_completed (negb (completed task)) task]>
                        (tasks w)) w)).

(** ** get_prioritized_tasks *)

(** The sort key [(x["priority"], -x["duration"])]. *)
Definition sort_key (t : task) : Z * Z := (priority t, - duration t).

(** The tasks that are not completed, in stable order of their keys.
    The result lists positions of the store: the elements of the Python
    list are the very dictionaries of [st.session_state.tasks]. *)
Definition get_prioritized_tasks (tasks : list task) : list nat :=
  (stable_sort (λ a b : nat * task, tuple_le (sort_key a.2) (sort_key b.2))
     (filter (λ it : nat * task, completed it.2 = false)
        (imap pair tasks))).*1.

(** ** schedule_tasks *)

(** The key of [free_slots.sort(key=width, reverse=True)]: wider slots
    first, equal widths in input order. *)
Definition wider_first (a b : interval) : bool :=
  b.2 - b.1 <=? a.2 - a.1.

(** Lines 145-147: the first slot, with its position, that is wide
    enough. *)
Fixpoint first_fit (task_duration : Z) (free_slots : list interval)
  : option (nat * interval) :=
  match free_slots with
  | [] => None
  | (start, end_) :: rest =>
      if task_duration <=? end_ - start then Some (0%nat, (start, end_))
      else prod_map S id <$> first_fit task_duration rest
  end.

(** Lines 143-157: the task at position [k] of the store, not scheduled
    yet, is offered to the free slots. *)
Definition place_task (buffer_time : Z)
    (st : list task * list interval) (k : nat) (t : task)
  : list task * list interval :=
  let '(tasks, free_slots) := st in
  let task_duration := timedelta_minutes (duration t) + buffer_time in
  match first_fit task_duration free_slots with
  | None => st
  | Some (i, (start, end_)) =>
      let new_start := start + task_duration in
      let free_slots' := <[i := (new_start, end_)]> free_slots in
      (<[k := set_schedule start (start + task_duration) t]> tasks,
       if new_start >=? end_ then delete i free_slots' else free_slots')
  end.

(** Lines 139-157: the body of the loop over the prioritized tasks, for
    the task at position [k] of the store. *)
Definition schedule_task (buffer_time : Z)
    (st : list task * list interval) (k : nat)
  : list task * list interval :=
  match st.1 !! k with
  | None => st
  | Some t => if scheduled t then st else place_task buffer_time st k t
  end.

(** Lines 135-157: the packer, the spec's [pack].  It sorts its copy of
    the free slots, then runs the loop; the result is the store and the
    slots left over. *)
Definition pack (tasks : list task) (free_slots : list interval)
    (buffer_minutes : Z) : list task * list interval :=
  let free_slots := stable_sort wider_first free_slots in
  let buffer_time := timedelta_minutes buffer_minutes in
  foldl (schedule_task buffer_time) (tasks, free_slots)
        (get_prioritized_tasks tasks).

(** [datetime.time(hour, 0)] raises [ValueError] outside [0..23]. *)
Definition time_of_hour (hour : Z) : option Z :=
  if (0 <=? hour) && (hour <=? 23) then Some (timedelta_hours hour)
  else None.

Section schedule.
Variable fromisoformat : string → option Z.
(** Local midnight of [datetime.date.today()]. *)
Variable today : Z.

Definition schedule_tasks (w : state) : option state :=
  day_start ← Z.add today <$> time_of_hour (day_start_hour w);
  day_end ← Z.add today <$> time_of_hour (day_end_hour w);
  match calendar_events w with
  | [] => Some (show (Warning "No calendar events found to schedule around") w)
  | _ :: _ =>
      free_slots ←
        find_free_slots fromisoformat (calendar_events w) day_start day_end;
      Some (save_tasks
              (set_tasks (pack (tasks w) free_slots (buffer_minutes w)).1 w))
  end.
End schedule.

(** ** Notions used in the statements *)

(** The loop of lines 114-120 as a recursion over the sorted busy list,
    with the cursor as an argument; [compute_free_slots_gaps] shows that
    it computes what the loop computes. *)
Fixpoint gaps (busy_slots : list interval) (current day_end : Z)
  : list interval :=
  match busy_slots with
  | [] => if current <? day_end then [(current, day_end)] else []
  | (start, end_) :: rest =>
      (if current <? start then [(current, start)] else [])
        ++ gaps rest (Z.max current end_) day_end
  end.

(** Two spans share no instant. *)
Definition apart (a b : interval) : Prop := overlaps a b = false.

(** A slot is wide enough for a reservation of [task_duration]. *)
Definition fits (task_duration : Z) (slot : interval) : Prop :=
  task_duration ≤ slot.2 - slot.1.

(** The positions the packing loop does not skip: tasks of the
    prioritized list that are not scheduled when the run starts. *)
Definition candidates (tasks : list task) : list nat :=
  filter (λ k, scheduled <$> tasks !! k = Some false)
         (get_prioritized_tasks tasks).

(** Position [i] is iterated before position [j]: smaller priority
    number first, then longer duration, then the earlier position. *)
Definition goes_before (tasks : list task) (i j : nat) : Prop :=
  ∃ ti tj, tasks !! i = Some ti ∧ tasks !! j = Some tj ∧
    (priority ti < priority tj ∨
     (priority ti = priority tj ∧
      (duration tj < duration ti ∨
       (duration ti = duration tj ∧ (i < j)%nat)))).

(** The task at position [k] was not scheduled in [before], is scheduled
    in [after] and reserves the span [r] there. *)
Definition scheduled_by_run (before after : list task) (k : nat)
    (r : interval) : Prop :=
  ∃ t t', before !! k = Some t ∧ scheduled t = false ∧
          after !! k = Some t' ∧ scheduled t' = true ∧
          reserved t' = Some r.


(** Both [event['start']] and [event['end']] hold a ['dateTime']. *)
Definition has_dateTimes (e : event) : Prop :=
  is_Some (ev_start e !! "dateTime") ∧ is_Some (ev_end e !! "dateTime").

#[global] Instance has_dateTimes_dec (e : event) : Decision (has_dateTimes e).
Proof. unfold has_dateTimes. apply _. Defined.

(** Lines 143-157 for the task found at position [k] of the store,
    without the test of line 140. *)
Definition offer_task (buffer_time : Z)
    (st : list task * list interval) (k : nat)
  : list task * list interval :=
  match st.1 !! k with
  | None => st
  | Some t => place_task buffer_time st k t
  end.

(** The order of the indexed tasks that [sorted] produces: by key, and
    by position for equal keys. *)
Definition pair_before (a b : nat * task) : Prop :=
  priority a.2 < priority b.2 ∨
  (priority a.2 = priority b.2 ∧
   (duration b.2 < duration a.2 ∨
    (duration a.2 = duration b.2 ∧ (a.1 < b.1)%nat))).

(** What holds of the store and the slot list throughout a packing run
    that started from the store [ts0] with slots taken from the free
    time left by [busy]: the slots share no instant with each other nor
    with a busy interval; a task not scheduled yet is as it was at the
    start; a task scheduled by the run reserves [duration + buffer] and
    shares no instant with a remaining slot, a busy interval or another
    task scheduled by the run. *)
Definition run_invariant (busy : list interval) (bt : Z) (ts0 : list task)
    (st : list task * list interval) : Prop :=
  StronglySorted apart st.2 ∧
  Forall (λ sl, Forall (apart sl) busy) st.2 ∧
  (∀ k t, st.1 !! k = Some t → scheduled t = false → ts0 !! k = Some t) ∧
  (∀ k t t', ts0 !! k = Some t → scheduled t = false →
             st.1 !! k = Some t' → scheduled t' = true →
             ∃ s, reserved t' = Some (s, s + (timedelta_minutes (duration t) + bt))) ∧
  (∀ k r, scheduled_by_run ts0 st.1 k r →
          Forall (apart r) st.2 ∧ Forall (apart r) busy) ∧
  (∀ k k' r r', k ≠ k' → scheduled_by_run ts0 st.1 k r →
                scheduled_by_run ts0 st.1 k' r' → apart r r').

(** ** Data of the worked examples *)

Definition digit (c : Ascii.ascii) : option Z :=
  let n := Z.of_nat (Ascii.nat_of_ascii c) in
  if (48 <=? n) && (n <=? 57) then Some (n - 48) else None.

Definition two_digits (s : string) : option Z :=
  match s with
  | String a (String b EmptyString) =>
      x ← digit a; y ← digit b; Some (10 * x + y)
  | _ => None
  end.

(** A [fromisoformat] for the examples: it reads the times of
    2026-11-04, written ["2026-11-04THH:MM:SS"], as instants counted from
    the local midnight of that day, and rejects every other string. *)
Definition day_fromisoformat (s : string) : option Z :=
  if String.eqb (String.substring 0 11 s) "2026-11-04T"
     && String.eqb (String.substring 13 1 s) ":"
     && String.eqb (String.substring 16 1 s) ":"
     && (String.length s =? 19)%nat
  then
    h ← two_digits (String.substring 11 2 s);
    m ← two_digits (String.substring 14 2 s);
    sec ← two_digits (String.substring 17 2 s);
    Some (timedelta_hours h + timedelta_minutes m + sec * 1000000)
  else None.

(** A timed event of the feed, as the calendar sends it in UTC
    notation. *)
Definition timed_event (from to : string) : event :=
  mkEvent {[ "dateTime" := from ]} {[ "dateTime" := to ]}.

(** An all-day event carries only ['date']. *)
Definition all_day_event (from to : string) : event :=
  mkEvent {[ "date" := from ]} {[ "date" := to ]}.

(** [h] o'clock of the example day; its local midnight is instant 0. *)
Definition at_hour (h : Z) : Z := timedelta_hours h.

Definition new_task (name : string) (p d : Z) : task :=
  mkTask name p d "Work" false None None false.

(** An evening event, after the end of the day window. *)
Definition evening_events : list event :=
  [timed_event "2026-11-04T22:00:00Z" "2026-11-04T23:00:00Z"].

(** A lunch meeting; the state before any task exists. *)
Definition lunch_state : state :=
  mkState [] 8 20 5
    [timed_event "2026-11-04T12:00:00Z" "2026-11-04T13:00:00Z"] None [].


(** The tasks of the priority-ordering example. *)
Definition abc_tasks : list task :=
  [new_task "A" 1 30; new_task "B" 2 60; new_task "C" 1 90].

(** A completed task that was never scheduled. *)
Definition done_task : task :=
  mkTask "D" 1 30 "Work" false None None true.

(** A calendar with a timed event, an all-day event and an event whose
    end is all-day. *)
Definition mixed_events : list event :=
  [all_day_event "2026-11-04" "2026-11-05";
   timed_event "2026-11-04T09:00:00Z" "2026-11-04T10:00:00Z";
   mkEvent {[ "dateTime" := "2026-11-04T15:00:00Z" ]}
           {[ "date" := "2026-11-05" ]}].

(** A store of two tasks, the second one scheduled. *)
Definition two_task_state : state :=
  mkState [new_task "A" 1 30;
           mkTask "B" 2 60 "Health" true
                  (Some (at_hour 9)) (Some (at_hour 10)) false]
          8 20 5 [] None [].

(** Two tasks of 30 minutes, and a task of 30 minutes followed by one of
    20 minutes. *)
Definition twin_tasks : list task :=
  [new_task "first" 1 30; new_task "second" 1 30].

Definition short_second_tasks : list task :=
  [new_task "first" 1 30; new_task "second" 1 20].

(** A task of 100 minutes that is iterated before one of 10 minutes. *)
Definition large_small_tasks : list task :=
  [new_task "large" 1 100; new_task "small" 1 10].

(** Two new tasks next to the lunch meeting, and the state after one
    run on them. *)
Definition two_new_state : state :=
  add_task "B" 1 30 "Work" (add_task "A" 1 30 "Work" lunch_state).

Definition two_new_result : state :=
  save_tasks
    (set_tasks
       [set_schedule (at_hour 13) (at_hour 13 + timedelta_minutes 35)
                     (new_task "A" 1 30);
        set_schedule (at_hour 13 + timedelta_minutes 35)
                     (at_hour 13 + timedelta_minutes 70)
                     (new_task "B" 1 30)]
       two_new_state).


(** ** The rest of the task store and of the page *)

(** [del st.session_state.tasks[index]], then [save_tasks()]. *)
Definition delete_task (index : Z) (w : state) : option state :=
  i ← list_index (tasks w) index;
  Some (save_tasks (set_tasks (delete i (tasks w)) w)).

(** The four assignments of [edit_task] on one task dictionary. *)
Definition set_details (new_title : string) (new_priority new_duration : Z)
    (new_category : string) (t : task) : task :=
  mkTask new_title new_priority new_duration new_category
         (scheduled t) (start_time t) (end_time t) (completed t).

Definition edit_task (index : Z) (new_title : string)
    (new_priority new_duration : Z) (new_category : string) (w : state)
  : option state :=
  i ← list_index (tasks w) index;
  t ← tasks w !! i;
  Some (save_tasks
          (set_tasks (<[i := set_details new_title new_priority new_duration
                                         new_category t]> (tasks w)) w)).

(** Lines 321-324: the "Clear All Tasks" button. *)
Definition clear_all_tasks (w : state) : state :=
  show (Success "All tasks cleared!") (save_tasks (set_tasks [] w)).

(** [sum(task["duration"] for task in tasks if task[key])] *)
Definition sum_durations (keep : task → bool) (ts : list task) : Z :=
  foldr Z.add 0 (duration <$> filter (λ t, keep t = true) ts).

(** Lines 171-172 of [calculate_productivity]: the two whole-number
    results (the completion rate is a float and is left out). *)
Definition total_planned_time (ts : list task) : Z :=
  sum_durations scheduled ts.

Definition actual_time (ts : list task) : Z :=
  sum_durations completed ts.

(** Lines 245-258: the task list shows one row per element of
    [get_prioritized_tasks()], numbered by [enumerate]; the button of row
    [idx] calls [toggle_task_completion(idx)].  Rows that are not shown
    have no button. *)
Definition click_complete (idx : nat) (w : state) : option state :=
  if decide (idx < length (get_prioritized_tasks (tasks w)))%nat
  then toggle_task_completion (Z.of_nat idx) w
  else Some w.

(** Lines 264-267: the delete button of row [idx] calls
    [delete_task(idx)]. *)
Definition click_delete (idx : nat) (w : state) : option state :=
  if decide (idx < length (get_prioritized_tasks (tasks w)))%nat
  then delete_task (Z.of_nat idx) w
  else Some w.

(** The conversion of both ['dateTime'] strings of an event succeeds. *)
Definition converts (fromisoformat : string → option Z) (e : event) : Prop :=
  is_Some (ev_start e !! "dateTime" ≫= (λ s, fromisoformat (drop_last s))) ∧
  is_Some (ev_end e !! "dateTime" ≫= (λ s, fromisoformat (drop_last s))).

(** The event passes the test of line 105. *)
Definition timed (e : event) : Prop :=
  truthy (ev_start e !! "dateTime") && truthy (ev_end e !! "dateTime") = true.

(** The width of a span. *)
Definition width (a : interval) : Z := a.2 - a.1.

(** A span lies inside another. *)
Definition inside (a b : interval) : Prop := b.1 ≤ a.1 ∧ a.2 ≤ b.2.

(** Data of further examples: a morning of meetings, one of them
    given twice. *)
Definition morning_busy : list interval :=
  [(at_hour 9, at_hour 10); (at_hour 11, at_hour 12); (at_hour 9, at_hour 10)].

(** A store with a scheduled task, a completed one and a new one. *)
Definition three_task_state : state :=
  mkState [mkTask "A" 2 30 "Work" true
                  (Some (at_hour 13)) (Some (at_hour 13 + timedelta_minutes 35))
                  false;
           mkTask "B" 3 45 "Health" false None None true;
           new_task "C" 1 60]
          8 20 5
          [timed_event "2026-11-04T12:00:00Z" "2026-11-04T13:00:00Z"] None [].


(** Two records of one task, before and after a packing run: the run
    leaves the five fields it does not own, leaves a task that was
    scheduled as it was, and leaves a task that is still unscheduled as
    it was. *)
Definition kept_by_run (t t' : task) : Prop :=
  title t' = title t ∧ priority t' = priority t ∧
  duration t' = duration t ∧ category t' = category t ∧
  completed t' = completed t ∧
  (scheduled t = true → t' = t) ∧
  (scheduled t' = false → t' = t).


(** What a packing run that started from the store [ts0] and the slots
    [slots0] keeps concerning room: every slot left is a part of a slot
    of [slots0], so is the span of every task the run scheduled, and a
    task not scheduled yet is as it was at the start. *)
Definition run_within (slots0 : list interval) (ts0 : list task)
    (st : list task * list interval) : Prop :=
  Forall (λ sl', ∃ sl, sl ∈ slots0 ∧ inside sl' sl) st.2 ∧
  (∀ k r, scheduled_by_run ts0 st.1 k r → ∃ sl, sl ∈ slots0 ∧ inside r sl) ∧
  (∀ k t, st.1 !! k = Some t → scheduled t = false → ts0 !! k = Some t).


(** The free time of a slot list, and the time a run has handed out:
    the widths of the spans of the tasks that were unscheduled in
    [before] and are scheduled in [after]. *)
Definition total_width (l : list interval) : Z :=
  foldr Z.add 0 (width <$> l).

Definition handed_to (t t' : task) : Z :=
  if negb (scheduled t) && scheduled t'
  then match reserved t' with Some r => width r | None => 0 end
  else 0.

Definition handed_out (before after : list task) : Z :=
  foldr Z.add 0 (zip_with handed_to before after).



(** * Properties *)

(** ** The stable sort *)

Section stable_sort_facts.
Context {A : Type} (le : A → A → bool).

Lemma insert_sorted_perm (x : A) (l : list A) :
  insert_sorted le x l ≡ₚ x :: l.
Proof.
  induction l as [|y l IH]; simpl; [done|].
  destruct (le x y); [done|].
  rewrite IH. apply Permutation_swap.
Qed.

Lemma stable_sort_perm (l : list A) : stable_sort le l ≡ₚ l.
Proof.
  induction l as [|x l IH]; simpl; [done|].
  unfold stable_sort in IH. by rewrite insert_sorted_perm, IH.
Qed.

Lemma stable_sort_length (l : list A) :
  length (stable_sort le l) = length l.
Proof. by rewrite stable_sort_perm. Qed.

(** With a relation [R] that follows from [le] and from the failure of
    the converse test, and given that the inserted element is related
    to all that came after it in the input, insertion keeps the list
    strongly sorted. *)
Lemma insert_sorted_sorted (R : relation A) (x : A) (l : list A) :
  (∀ y, y ∈ l → le x y = true → R x y) →
  (∀ y, y ∈ l → le x y = false → R y x) →
  (∀ y z, y ∈ l → z ∈ l → le x y = true → R y z → R x z) →
  StronglySorted R l → StronglySorted R (insert_sorted le x l).
Proof.
  intros Hle Hgt Htr Hs.
  induction Hs as [|y l Hs IH Hy]; simpl.
  - repeat constructor.
  - destruct (le x y) eqn:E.
    + constructor; [by constructor|].
      constructor; [apply Hle; [left|done]|].
      rewrite Forall_forall in Hy |- *. intros z Hz.
      apply (Htr y z); [left|by right|done|by apply Hy].
    + constructor.
      * apply IH.
        -- intros z Hz. apply Hle. by right.
        -- intros z Hz. apply Hgt. by right.
        -- intros u v Hu Hv. apply Htr; by right.
      * rewrite insert_sorted_perm. constructor; [|done].
        apply Hgt; [left|done].
Qed.
End stable_sort_facts.

(** [busy_slots.sort()] orders the busy list by start. *)
Lemma sort_busy_by_start (busy_slots : list interval) :
  StronglySorted (λ a b : interval, a.1 ≤ b.1)
                 (stable_sort tuple_le busy_slots).
Proof.
  induction busy_slots as [|x l IH]; simpl; [constructor|].
  apply insert_sorted_sorted; try done.
  - intros y _. unfold tuple_le. lia.
  - intros y _. unfold tuple_le. lia.
  - intros y z _ _. unfold tuple_le. lia.
Qed.

(** ** find_free_slots *)

Lemma foldl_sweep_step (l : list interval) (acc : list interval) (cur de : Z) :
  (let '(free_slots, current) := foldl sweep_step (acc, cur) l in
   if current <? de then free_slots ++ [(current, de)] else free_slots)
  = acc ++ gaps l cur de.
Proof.
  revert acc cur. induction l as [|[s e] l IH]; intros acc cur; simpl.
  - destruct (cur <? de); [done|by rewrite app_nil_r].
  - destruct (cur <? s); simpl.
    + rewrite IH. by rewrite <- app_assoc.
    + apply IH.
Qed.

Lemma compute_free_slots_gaps (busy_slots : list interval) (day_start day_end : Z) :
  compute_free_slots busy_slots day_start day_end
  = gaps (stable_sort tuple_le busy_slots) day_start day_end.
Proof. unfold compute_free_slots. apply (foldl_sweep_step _ []). Qed.

(** Every gap starts at or after the cursor, is not empty, and ends
    before the next one starts. *)
Lemma gaps_chain (l : list interval) (cur de : Z) :
  Forall (λ b : interval, b.1 ≤ b.2) l →
  Forall (λ sl : interval, cur ≤ sl.1 ∧ sl.1 < sl.2) (gaps l cur de) ∧
  StronglySorted (λ a b : interval, a.1 < b.1 ∧ a.2 ≤ b.1) (gaps l cur de).
Proof.
  intros Hl. revert cur.
  induction Hl as [|[s e] l Hse Hl IH]; intros cur; simpl in *.
  - destruct (cur <? de) eqn:E; repeat constructor; simpl; lia.
  - destruct (IH (Z.max cur e)) as [Hall Hsorted].
    assert (Forall (λ sl : interval, cur ≤ sl.1 ∧ sl.1 < sl.2)
                   (gaps l (Z.max cur e) de)) as Hall'.
    { eapply Forall_impl; [exact Hall|]. simpl. lia. }
    destruct (cur <? s) eqn:E; simpl; [|done].
    split.
    + constructor; [simpl; lia|done].
    + constructor; [done|].
      eapply Forall_impl; [exact Hall|]. simpl. lia.
Qed.

(** A gap shares no instant with a busy interval of the list it was
    computed from, when that list is ordered by start. *)
Lemma gaps_apart_busy (l : list interval) (cur de : Z) :
  StronglySorted (λ a b : interval, a.1 ≤ b.1) l →
  Forall (λ sl : interval, cur ≤ sl.1 ∧ Forall (apart sl) l) (gaps l cur de).
Proof.
  intros Hs. revert cur.
  induction Hs as [|[s e] l Hs IH Hse]; intros cur; simpl in *.
  - destruct (cur <? de); repeat constructor; simpl; lia.
  - apply Forall_app. split.
    + destruct (cur <? s) eqn:E; [|constructor].
      constructor; [|constructor]. split; [simpl; lia|].
      constructor.
      * unfold apart, overlaps. simpl. lia.
      * eapply Forall_impl; [exact Hse|].
        intros [s' e']. unfold apart, overlaps. simpl. lia.
    + eapply Forall_impl; [apply (IH (Z.max cur e))|].
      intros [s' e'] [Hcur Hap]. simpl in *. split; [lia|].
      constructor; [|done]. unfold apart, overlaps. simpl. lia.
Qed.

(** The instants of the gaps, when no busy interval starts after
    [day_end]: those of the window that no busy interval covers. *)
Lemma gaps_covered (l : list interval) (cur de t : Z) :
  StronglySorted (λ a b : interval, a.1 ≤ b.1) l →
  Forall (λ b : interval, b.1 ≤ de) l →
  covered t (gaps l cur de) ↔ cur ≤ t < de ∧ ¬ covered t l.
Proof.
  unfold covered. intros Hs. revert cur.
  induction Hs as [|[s e] l Hs IH Hse]; intros cur Hde; simpl.
  - rewrite Exists_nil. destruct (cur <? de) eqn:E.
    + rewrite Exists_cons, Exists_nil. unfold within. simpl. lia.
    + rewrite Exists_nil. lia.
  - apply Forall_cons in Hde as [Hs_de Hde]. simpl in Hs_de.
    rewrite Exists_app, Exists_cons, (IH (Z.max cur e) Hde).
    assert (t < s → ¬ Exists (within t) l) as Hlater.
    { intros Hts. rewrite <- Forall_Exists_neg.
      eapply Forall_impl; [exact Hse|].
      intros [s' e']. unfold within. simpl. lia. }
    change (within t (s, e)) with (s ≤ t < e).
    destruct (cur <? s) eqn:E.
    + rewrite Exists_cons, Exists_nil.
      change (within t (cur, s)) with (cur ≤ t < s).
      split.
      * intros [[H|[]]|[H1 H2]]; (split; [lia|]).
        -- intros [H'|H']; [lia|]. apply Hlater; [lia|done].
        -- intros [H'|H']; [lia|done].
      * intros [H1 H2]. destruct (decide (t < s)) as [Hts|Hts].
        -- left. left. lia.
        -- right. split; [|tauto]. 
           assert (¬ (s ≤ t < e)) by tauto. lia.
    + rewrite Exists_nil. split.
      * intros [[]|[H1 H2]]. split; [lia|].
        intros [H'|H']; [lia|done].
      * intros [H1 H2]. right. split; [|tauto].
        assert (¬ (s ≤ t < e)) by tauto. lia.
Qed.

Lemma covered_perm (t : Z) (l l' : list interval) :
  l ≡ₚ l' → covered t l ↔ covered t l'.
Proof.
  intros Hp. unfold covered. rewrite !Exists_exists.
  by setoid_rewrite Hp.
Qed.

(** When no busy interval starts after [day_end], the free slots hold
    exactly the instants of the day window that no busy interval
    covers. *)
Theorem compute_free_slots_covered (busy_slots : list interval)
    (day_start day_end t : Z) :
  Forall (λ b : interval, b.1 ≤ day_end) busy_slots →
  covered t (compute_free_slots busy_slots day_start day_end)
  ↔ day_start ≤ t < day_end ∧ ¬ covered t busy_slots.
Proof.
  intros Hde. rewrite compute_free_slots_gaps.
  rewrite gaps_covered.
  - by rewrite (covered_perm t _ _ (stable_sort_perm tuple_le busy_slots)).
  - apply sort_busy_by_start.
  - by rewrite stable_sort_perm.
Qed.

(** No free slot shares an instant with a busy interval, wherever the
    busy intervals lie. *)
Lemma compute_free_slots_apart_busy (busy_slots : list interval)
    (day_start day_end : Z) :
  Forall (λ sl : interval, Forall (apart sl) busy_slots)
         (compute_free_slots busy_slots day_start day_end).
Proof.
  rewrite compute_free_slots_gaps.
  eapply Forall_impl;
    [apply gaps_apart_busy, sort_busy_by_start|].
  intros sl [_ H]. by rewrite stable_sort_perm in H.
Qed.

(** Every free slot starts at or after [day_start] and is not empty, and
    the free slots come in order, without the window's bounds having to
    be in order themselves. *)
Lemma compute_free_slots_chain (busy_slots : list interval)
    (day_start day_end : Z) :
  Forall (λ b : interval, b.1 ≤ b.2) busy_slots →
  Forall (λ sl : interval, day_start ≤ sl.1 ∧ sl.1 < sl.2)
         (compute_free_slots busy_slots day_start day_end) ∧
  StronglySorted (λ a b : interval, a.1 < b.1 ∧ a.2 ≤ b.1)
         (compute_free_slots busy_slots day_start day_end).
Proof.
  intros Hbusy. rewrite compute_free_slots_gaps.
  apply gaps_chain. by rewrite stable_sort_perm.
Qed.

(** When no busy interval starts after [day_end] and the busy intervals
    cover the whole window, there is no free slot. *)
Lemma compute_free_slots_empty (busy_slots : list interval)
    (day_start day_end : Z) :
  Forall (λ b : interval, b.1 ≤ b.2) busy_slots →
  Forall (λ b : interval, b.1 ≤ day_end) busy_slots →
  (∀ t, day_start ≤ t < day_end → covered t busy_slots) →
  compute_free_slots busy_slots day_start day_end = [].
Proof.
  intros Hbusy Hde Hcov.
  destruct (compute_free_slots_chain busy_slots day_start day_end Hbusy)
    as [Hall _].
  pose proof (compute_free_slots_covered busy_slots day_start day_end) as Hc.
  destruct (compute_free_slots busy_slots day_start day_end)
    as [|[s e] free]; [done|].
  apply Forall_cons in Hall as [[_ Hse] _]. simpl in Hse.
  destruct (Hc s Hde) as [Hin _].
  destruct Hin as [Hwin Hfree]; [left; unfold within; simpl; lia|].
  exfalso. by apply Hfree, Hcov.
Qed.

(** C1 (the code departs from the claim): an event that starts after the
    end of the day window.  With the window 8:00-20:00 and one event
    22:00-23:00, [find_free_slots] returns the single slot 8:00-22:00:
    the instant 21:00 is in a returned free slot, is covered by no busy
    interval, and lies outside the window, so the union of the free
    slots is not the window minus the busy intervals. *)
Theorem find_free_slots_past_day_end :
  busy_slots_of day_fromisoformat evening_events
    = Some [(at_hour 22, at_hour 23)] ∧
  find_free_slots day_fromisoformat evening_events (at_hour 8) (at_hour 20)
    = Some [(at_hour 8, at_hour 22)] ∧
  compute_free_slots [(at_hour 22, at_hour 23)] (at_hour 8) (at_hour 20)
    = [(at_hour 8, at_hour 22)] ∧
  covered (at_hour 21) [(at_hour 8, at_hour 22)] ∧
  ¬ covered (at_hour 21) [(at_hour 22, at_hour 23)] ∧
  ¬ (at_hour 8 ≤ at_hour 21 < at_hour 20).
Proof.
  split; [by vm_compute|]. split; [by vm_compute|].
  split; [by vm_compute|]. split; [|split].
  - left. unfold within, at_hour, timedelta_hours. simpl. lia.
  - unfold covered. rewrite Exists_cons, Exists_nil.
    unfold within, at_hour, timedelta_hours. simpl. lia.
  - unfold at_hour, timedelta_hours. lia.
Qed.

(** C10: for a day window with [day_start <= day_end] and busy intervals
    with [start <= end], every free slot [(s, e)] returned has [s < e],
    and the slots come in strictly increasing order, each ending no
    later than every later slot starts. *)
Theorem free_slots_nonempty_ordered (busy_slots : list interval)
    (day_start day_end : Z) :
  day_start ≤ day_end →
  Forall (λ b : interval, b.1 ≤ b.2) busy_slots →
  Forall (λ sl : interval, sl.1 < sl.2)
         (compute_free_slots busy_slots day_start day_end) ∧
  StronglySorted (λ a b : interval, a.1 < b.1 ∧ a.2 ≤ b.1)
         (compute_free_slots busy_slots day_start day_end).
Proof.
  intros _ Hbusy.
  destruct (compute_free_slots_chain busy_slots day_start day_end Hbusy)
    as [Hall Hsorted].
  split; [|done].
  eapply Forall_impl; [exact Hall|]. simpl. tauto.
Qed.

Lemma free_slots_nonempty_ordered_witness :
  Forall (λ sl : interval, sl.1 < sl.2)
         (compute_free_slots [(570, 660); (540, 600)] 480 720) ∧
  StronglySorted (λ a b : interval, a.1 < b.1 ∧ a.2 ≤ b.1)
         (compute_free_slots [(570, 660); (540, 600)] 480 720).
Proof.
  apply (free_slots_nonempty_ordered [(570, 660); (540, 600)] 480 720).
  - lia.
  - repeat constructor; simpl; lia.
Defined.

(** C9: [find_free_slots] itself skips every event whose start or end
    has no ['dateTime']: on any event list it returns what it returns on
    the sub-list of the events that have both, also when a conversion
    raises. *)
Theorem find_free_slots_skips_untimed (fromisoformat : string → option Z)
    (events : list event) (day_start day_end : Z) :
  find_free_slots fromisoformat events day_start day_end
  = find_free_slots fromisoformat (filter has_dateTimes events)
                    day_start day_end.
Proof.
  unfold find_free_slots. f_equal.
  induction events as [|e events IH]; [done|].
  rewrite filter_cons. destruct (decide (has_dateTimes e)) as [He|He].
  - simpl. rewrite IH. done.
  - simpl. rewrite <- IH.
    unfold has_dateTimes in He.
    destruct (ev_start e !! "dateTime") as [s|] eqn:Es; simpl; [|done].
    destruct (ev_end e !! "dateTime") as [s'|] eqn:Ee; simpl.
    + exfalso. apply He. split; eauto.
    + by rewrite andb_false_r.
Qed.

Example find_free_slots_mixed_events :
  find_free_slots day_fromisoformat mixed_events (at_hour 8) (at_hour 20)
  = Some [(at_hour 8, at_hour 9); (at_hour 10, at_hour 20)].
Proof. by vm_compute. Qed.

(** ** toggle_task_completion *)

Lemma list_index_lt {A} (l : list A) (index : Z) (i : nat) :
  list_index l index = Some i → (i < length l)%nat.
Proof.
  unfold list_index. intros H.
  destruct ((0 <=? index) && (index <? Z.of_nat (length l))) eqn:E1.
  - injection H as <-. lia.
  - destruct ((- Z.of_nat (length l) <=? index) && (index <? 0)) eqn:E2;
      [|done].
    injection H as <-. lia.
Qed.

(** C8: [toggle_task_completion] negates the [completed] field of the
    task it is pointed at and changes nothing else: the other seven
    fields of that task, every other task, the settings, the calendar
    and the messages are as before; a scheduled task stays scheduled. *)
Theorem toggle_changes_only_completed (w : state) (index : Z) (i : nat) :
  list_index (tasks w) index = Some i →
  ∃ t t' w',
    tasks w !! i = Some t ∧
    toggle_task_completion index w = Some w' ∧
    tasks w' !! i = Some t' ∧
    completed t' = negb (completed t) ∧
    title t' = title t ∧ priority t' = priority t ∧
    duration t' = duration t ∧ category t' = category t ∧
    scheduled t' = scheduled t ∧
    start_time t' = start_time t ∧ end_time t' = end_time t ∧
    length (tasks w') = length (tasks w) ∧
    (∀ j, j ≠ i → tasks w' !! j = tasks w !! j) ∧
    day_start_hour w' = day_start_hour w ∧
    day_end_hour w' = day_end_hour w ∧
    buffer_minutes w' = buffer_minutes w ∧
    calendar_events w' = calendar_events w ∧
    shown w' = shown w.
Proof.
  intros Hidx. pose proof (list_index_lt _ _ _ Hidx) as Hlt.
  destruct (lookup_lt_is_Some_2 (tasks w) i Hlt) as [t Ht].
  exists t, (set_completed (negb (completed t)) t). eexists.
  split; [done|]. split.
  { unfold toggle_task_completion. rewrite Hidx. simpl. rewrite Ht. done. }
  simpl. split; [by apply list_lookup_insert_eq|].
  repeat (split; [done|]).
  split; [apply length_insert|].
  split; [|done].
  intros j Hj. by apply list_lookup_insert_ne.
Qed.

Lemma toggle_changes_only_completed_witness :
  ∃ t t' w',
    tasks two_task_state !! 1%nat = Some t ∧
    toggle_task_completion (-1) two_task_state = Some w' ∧
    tasks w' !! 1%nat = Some t' ∧
    completed t' = negb (completed t) ∧
    title t' = title t ∧ priority t' = priority t ∧
    duration t' = duration t ∧ category t' = category t ∧
    scheduled t' = scheduled t ∧
    start_time t' = start_time t ∧ end_time t' = end_time t ∧
    length (tasks w') = length (tasks two_task_state) ∧
    (∀ j, j ≠ 1%nat → tasks w' !! j = tasks two_task_state !! j) ∧
    day_start_hour w' = day_start_hour two_task_state ∧
    day_end_hour w' = day_end_hour two_task_state ∧
    buffer_minutes w' = buffer_minutes two_task_state ∧
    calendar_events w' = calendar_events two_task_state ∧
    shown w' = shown two_task_state.
Proof.
  apply (toggle_changes_only_completed two_task_state (-1) 1).
  reflexivity.
Defined.

(** ** The packing loop *)

Lemma first_fit_Some (d : Z) (slots : list interval) (i : nat) (sl : interval) :
  first_fit d slots = Some (i, sl) →
  slots !! i = Some sl ∧ fits d sl ∧
  ∀ j sl', (j < i)%nat → slots !! j = Some sl' → ¬ fits d sl'.
Proof.
  revert i. induction slots as [|[s e] slots IH]; intros i; simpl; [done|].
  destruct (d <=? e - s) eqn:E.
  - intros [= <- <-]. split; [done|]. split; [unfold fits; simpl; lia|].
    intros j sl' Hj. lia.
  - destruct (first_fit d slots) as [[i' sl'']|]; simpl; [|done].
    intros [= <- <-]. destruct (IH i' eq_refl) as (Hl & Hf & Hm).
    split; [done|]. split; [done|].
    intros [|j] sl' Hj; simpl.
    + intros [= <-]. unfold fits. simpl. lia.
    + apply Hm. lia.
Qed.

Lemma first_fit_complete (d : Z) (slots : list interval) (i : nat)
    (sl : interval) :
  slots !! i = Some sl → fits d sl →
  (∀ j sl', (j < i)%nat → slots !! j = Some sl' → ¬ fits d sl') →
  first_fit d slots = Some (i, sl).
Proof.
  revert i. induction slots as [|[s e] slots IH]; intros i; simpl; [done|].
  intros Hl Hf Hm. destruct i as [|i]; simpl in Hl.
  - injection Hl as <-. unfold fits in Hf. simpl in Hf.
    destruct (d <=? e - s) eqn:E; [done|lia].
  - destruct (d <=? e - s) eqn:E.
    + exfalso. apply (Hm 0%nat (s, e)); [lia|done|].
      unfold fits. simpl. lia.
    + rewrite (IH i Hl Hf); [done|].
      intros j sl' Hj Hl'. apply (Hm (S j) sl'); [lia|done].
Qed.

Lemma first_fit_None (d : Z) (slots : list interval) :
  first_fit d slots = None ↔ Forall (λ sl, ¬ fits d sl) slots.
Proof.
  induction slots as [|[s e] slots IH]; simpl.
  - split; [constructor|done].
  - rewrite Forall_cons. unfold fits at 1. simpl.
    destruct (d <=? e - s) eqn:E.
    + split; [done|]. intros [H _]. lia.
    + destruct (first_fit d slots) as [[i sl]|]; simpl.
      * split; [done|]. intros [_ H]. by apply IH in H.
      * split; [|done]. intros _. split; [lia|by apply IH].
Qed.

(** The slot list after a placement in slot [i] with bounds [(s, e)]. *)
Lemma consume_slot (slots : list interval) (i : nat) (s e d : Z) :
  slots !! i = Some (s, e) →
  (if s + d >=? e then delete i (<[i := (s + d, e)]> slots)
   else <[i := (s + d, e)]> slots)
  = take i slots ++ (if s + d >=? e then [] else [(s + d, e)])
      ++ drop (S i) slots.
Proof.
  intros Hl. pose proof (lookup_lt_Some _ _ _ Hl) as Hlt.
  destruct (s + d >=? e).
  - rewrite delete_take_drop, take_insert_ge, drop_insert_lt by lia. done.
  - by rewrite insert_take_drop.
Qed.

Lemma place_task_tasks (bt : Z) (tasks : list task) (slots : list interval)
    (k : nat) (t : task) :
  (place_task bt (tasks, slots) k t).1 = tasks ∨
  ∃ start, (place_task bt (tasks, slots) k t).1
           = <[k := set_schedule start
                      (start + (timedelta_minutes (duration t) + bt)) t]> tasks.
Proof.
  unfold place_task.
  destruct (first_fit _ slots) as [[i [s e]]|]; simpl; eauto.
Qed.

Lemma schedule_task_tasks (bt : Z) (st : list task * list interval) (k : nat) :
  (schedule_task bt st k).1 = st.1 ∨
  ∃ t start, st.1 !! k = Some t ∧ scheduled t = false ∧
    (schedule_task bt st k).1
    = <[k := set_schedule start
               (start + (timedelta_minutes (duration t) + bt)) t]> st.1.
Proof.
  destruct st as [tasks slots]. unfold schedule_task.
  change ((tasks, slots).1) with tasks.
  destruct (tasks !! k) as [t|] eqn:Ht; [|by left].
  destruct (scheduled t) eqn:Hs; [by left|].
  destruct (place_task_tasks bt tasks slots k t) as [->|[s ->]];
    [by left|right; eauto].
Qed.

Lemma schedule_task_length (bt : Z) (st : list task * list interval) (k : nat) :
  length (schedule_task bt st k).1 = length st.1.
Proof.
  destruct (schedule_task_tasks bt st k) as [->|(t & s & _ & _ & ->)];
    [done|apply length_insert].
Qed.

Lemma schedule_task_other (bt : Z) (st : list task * list interval)
    (k j : nat) :
  j ≠ k → (schedule_task bt st k).1 !! j = st.1 !! j.
Proof.
  intros Hj.
  destruct (schedule_task_tasks bt st k) as [->|(t & s & _ & _ & ->)];
    [done|by apply list_lookup_insert_ne].
Qed.

(** A task that is scheduled is not touched by an iteration, whichever
    position the iteration is for. *)
Lemma schedule_task_keeps_scheduled (bt : Z)
    (st : list task * list interval) (k j : nat) (t : task) :
  st.1 !! j = Some t → scheduled t = true →
  (schedule_task bt st k).1 !! j = Some t.
Proof.
  intros Hl Hs. destruct (decide (j = k)) as [->|Hne].
  - unfold schedule_task. rewrite Hl, Hs. done.
  - by rewrite schedule_task_other.
Qed.

Lemma foldl_schedule_task_length (bt : Z) (l : list nat)
    (st : list task * list interval) :
  length (foldl (schedule_task bt) st l).1 = length st.1.
Proof.
  revert st. induction l as [|k l IH]; intros st; simpl; [done|].
  by rewrite IH, schedule_task_length.
Qed.

Lemma foldl_schedule_task_keeps (bt : Z) (l : list nat)
    (st : list task * list interval) (j : nat) (t : task) :
  st.1 !! j = Some t → scheduled t = true ∨ j ∉ l →
  (foldl (schedule_task bt) st l).1 !! j = Some t.
Proof.
  revert st. induction l as [|k l IH]; intros st Hl Hs; simpl; [done|].
  apply IH.
  - destruct Hs as [Hs|Hs].
    + by apply schedule_task_keeps_scheduled.
    + rewrite schedule_task_other; [done|]. set_solver.
  - destruct Hs as [Hs|Hs]; [by left|right; set_solver].
Qed.

(** ** get_prioritized_tasks *)

Lemma StronglySorted_impl {A} (R1 R2 : relation A) (l : list A) :
  (∀ x y, x ∈ l → y ∈ l → R1 x y → R2 x y) →
  StronglySorted R1 l → StronglySorted R2 l.
Proof.
  intros HR Hs. induction Hs as [|x l Hs IH Hx]; constructor.
  - apply IH. intros u v Hu Hv. apply HR; by right.
  - rewrite Forall_forall in Hx |- *. intros y Hy.
    apply HR; [left|by right|by apply Hx].
Qed.

Lemma StronglySorted_filter {A} (R : relation A) (P : A → Prop)
    `{∀ x, Decision (P x)} (l : list A) :
  StronglySorted R l → StronglySorted R (filter P l).
Proof.
  intros Hs. induction Hs as [|x l Hs IH Hx]; [constructor|].
  rewrite filter_cons. destruct (decide (P x)); [|done].
  constructor; [done|].
  rewrite Forall_forall in Hx |- *. intros y Hy.
  apply Hx. by apply list_elem_of_filter in Hy as [_ Hy].
Qed.

Lemma StronglySorted_NoDup {A} (R : relation A) (l : list A) :
  (∀ x, ¬ R x x) → StronglySorted R l → NoDup l.
Proof.
  intros Hirr Hs. induction Hs as [|x l Hs IH Hx]; constructor; [|done].
  intros Hin. rewrite Forall_forall in Hx. by apply (Hirr x), Hx.
Qed.

(** A symmetric relation that holds between all pairs of a list holds
    between all pairs of each of its permutations. *)
Lemma StronglySorted_perm {A} (R : relation A) (l l' : list A) :
  (∀ x y, R x y → R y x) →
  l ≡ₚ l' → StronglySorted R l → StronglySorted R l'.
Proof.
  intros Hsym Hp. induction Hp as [|x l l' Hp IH|x y l|l l' l'' _ IH1 _ IH2].
  - done.
  - rewrite !StronglySorted_cons. intros [Hx Hs].
    split; [by rewrite <- Hp|by apply IH].
  - rewrite !StronglySorted_cons, !Forall_cons.
    intros [[Hyx Hy] [Hx Hs]]. split; [split|]; auto.
  - auto.
Qed.

Lemma imap_pair_increasing (n : nat) (l : list task) :
  StronglySorted (λ a b : nat * task, (a.1 < b.1)%nat)
                 (imap (λ i t, ((n + i)%nat, t)) l) ∧
  Forall (λ a : nat * task, (n ≤ a.1)%nat)
         (imap (λ i t, ((n + i)%nat, t)) l).
Proof.
  revert n. induction l as [|t l IH]; intros n; simpl.
  - split; constructor.
  - rewrite (imap_ext _ (λ i t, ((S n + i)%nat, t))).
    2:{ intros i x _. simpl. f_equal. lia. }
    destruct (IH (S n)) as [Hs Hall]. split.
    + constructor; [done|].
      eapply Forall_impl; [exact Hall|]. simpl. lia.
    + constructor; [simpl; lia|].
      eapply Forall_impl; [exact Hall|]. simpl. lia.
Qed.

(** The stable sort of indexed tasks in increasing position is ordered
    by key and, for equal keys, by position. *)
Lemma stable_sort_pairs (l : list (nat * task)) :
  StronglySorted (λ a b : nat * task, (a.1 < b.1)%nat) l →
  StronglySorted pair_before
    (stable_sort (λ a b : nat * task, tuple_le (sort_key a.2) (sort_key b.2))
                 l).
Proof.
  intros Hs. induction Hs as [|x l Hs IH Hx]; simpl; [constructor|].
  rewrite Forall_forall in Hx.
  apply insert_sorted_sorted; [| | |done].
  - intros y Hy. rewrite stable_sort_perm in Hy. specialize (Hx y Hy).
    unfold tuple_le, sort_key, pair_before. simpl. lia.
  - intros y Hy. unfold tuple_le, sort_key, pair_before. simpl. lia.
  - intros y z Hy Hz. rewrite stable_sort_perm in Hz.
    specialize (Hx z Hz).
    unfold tuple_le, sort_key, pair_before. simpl. lia.
Qed.

Lemma prioritized_pairs (ts : list task) :
  let l := stable_sort
             (λ a b : nat * task, tuple_le (sort_key a.2) (sort_key b.2))
             (filter (λ it : nat * task, completed it.2 = false)
                     (imap pair ts)) in
  StronglySorted pair_before l ∧
  ∀ a, a ∈ l ↔ ts !! a.1 = Some a.2 ∧ completed a.2 = false.
Proof.
  simpl. split.
  - apply stable_sort_pairs, StronglySorted_filter.
    apply (imap_pair_increasing 0).
  - intros [k t]. rewrite stable_sort_perm, list_elem_of_filter.
    rewrite elem_of_lookup_imap. simpl. split.
    + intros [Hc (i & y & [= -> ->] & Hl)]. done.
    + intros [Hl Hc]. split; [done|]. eauto.
Qed.

Lemma get_prioritized_tasks_elem (ts : list task) (k : nat) :
  k ∈ get_prioritized_tasks ts
  ↔ ∃ t, ts !! k = Some t ∧ completed t = false.
Proof.
  unfold get_prioritized_tasks. rewrite list_elem_of_fmap.
  destruct (prioritized_pairs ts) as [_ Hel]. simpl in Hel. split.
  - intros ([k' t] & -> & Hin). apply Hel in Hin. simpl in *. eauto.
  - intros (t & Hl & Hc). exists (k, t). split; [done|]. by apply Hel.
Qed.

Lemma get_prioritized_tasks_sorted (ts : list task) :
  StronglySorted (goes_before ts) (get_prioritized_tasks ts).
Proof.
  unfold get_prioritized_tasks.
  destruct (prioritized_pairs ts) as [Hs Hel]. simpl in Hs, Hel.
  eapply StronglySorted_fmap; [|eapply StronglySorted_impl; [|exact Hs]].
  - intros a b H. exact H.
  - intros a b Ha Hb Hab. apply Hel in Ha as [Ha _]. apply Hel in Hb as [Hb _].
    exists a.2, b.2. done.
Qed.

Lemma goes_before_irrefl (ts : list task) (k : nat) : ¬ goes_before ts k k.
Proof.
  intros (ti & tj & Hi & Hj & H). rewrite Hi in Hj. injection Hj as <-. lia.
Qed.

Lemma get_prioritized_tasks_NoDup (ts : list task) :
  NoDup (get_prioritized_tasks ts).
Proof.
  eapply StronglySorted_NoDup;
    [apply goes_before_irrefl|apply get_prioritized_tasks_sorted].
Qed.

Lemma candidates_elem (ts : list task) (k : nat) :
  k ∈ candidates ts
  ↔ ∃ t, ts !! k = Some t ∧ completed t = false ∧ scheduled t = false.
Proof.
  unfold candidates. rewrite list_elem_of_filter, get_prioritized_tasks_elem.
  split.
  - intros [Hs (t & Hl & Hc)]. rewrite Hl in Hs. simpl in Hs.
    exists t. by injection Hs as ->.
  - intros (t & Hl & Hc & Hs). rewrite Hl. simpl. rewrite Hs. eauto.
Qed.

Lemma candidates_sorted (ts : list task) :
  StronglySorted (goes_before ts) (candidates ts).
Proof. apply StronglySorted_filter, get_prioritized_tasks_sorted. Qed.

Lemma candidates_NoDup (ts : list task) : NoDup (candidates ts).
Proof. apply NoDup_filter, get_prioritized_tasks_NoDup. Qed.

Lemma filter_iff_elem {A} (P1 P2 : A → Prop)
    `{!∀ x, Decision (P1 x), !∀ x, Decision (P2 x)} (l : list A) :
  (∀ x, x ∈ l → P1 x ↔ P2 x) → filter P1 l = filter P2 l.
Proof.
  induction l as [|a l IH]; intros Hiff; [done|].
  rewrite !filter_cons, IH by (intros x Hx; apply Hiff; by right).
  destruct (decide (P1 a)) as [H1|H1], (decide (P2 a)) as [H2|H2];
    try done; exfalso; apply (Hiff a) in H1 || apply (Hiff a) in H2;
    done || by left.
Qed.

(** Skipping the scheduled tasks of the list is the same as visiting
    only those that are not scheduled at the start: an iteration touches
    no task but its own, and the list visits no position twice. *)
Lemma foldl_schedule_task_offer (bt : Z) (l : list nat)
    (st : list task * list interval) :
  NoDup l →
  foldl (schedule_task bt) st l
  = foldl (offer_task bt) st
          (filter (λ k, scheduled <$> st.1 !! k = Some false) l).
Proof.
  intros Hnd. revert st.
  induction Hnd as [|k l Hk Hnd IH]; intros st; [done|].
  rewrite filter_cons. simpl foldl.
  assert (filter (λ j, scheduled <$> (schedule_task bt st k).1 !! j = Some false) l
          = filter (λ j, scheduled <$> st.1 !! j = Some false) l) as Hfilter.
  { apply filter_iff_elem. intros j Hj.
    rewrite schedule_task_other; [done|]. intros ->. done. }
  destruct (decide (scheduled <$> st.1 !! k = Some false)) as [Hs|Hs].
  - simpl foldl. rewrite IH, Hfilter. f_equal.
    unfold schedule_task, offer_task.
    destruct (st.1 !! k) as [t|]; [|done].
    simpl in Hs. injection Hs as ->. done.
  - rewrite IH, Hfilter. f_equal.
    unfold schedule_task.
    destruct (st.1 !! k) as [t|]; [|done].
    destruct (scheduled t) eqn:E; [done|].
    exfalso. apply Hs. simpl. by rewrite E.
Qed.

Lemma pack_candidates (ts : list task) (slots : list interval) (buffer : Z) :
  pack ts slots buffer
  = foldl (offer_task (timedelta_minutes buffer))
          (ts, stable_sort wider_first slots) (candidates ts).
Proof.
  unfold pack.
  by rewrite foldl_schedule_task_offer by apply get_prioritized_tasks_NoDup.
Qed.

(** C4 (as the code has it): the packer's candidates are the tasks that
    are neither completed nor scheduled, each once, iterated by priority
    ascending, then duration descending, then position in the store;
    the packer offers the free slots to exactly these, in that order.
    With A (priority 1, 30 min), B (priority 2, 60 min), C (priority 1,
    90 min), one slot 8:00-10:00 and buffer 0 the order is C, A, B: C
    gets 8:00-9:30, A gets 9:30-10:00, B stays unscheduled and no slot
    is left. *)
Theorem candidates_order (ts : list task) (slots : list interval)
    (buffer : Z) :
  (∀ k, k ∈ candidates ts
        ↔ ∃ t, ts !! k = Some t ∧ completed t = false ∧ scheduled t = false) ∧
  NoDup (candidates ts) ∧
  StronglySorted (goes_before ts) (candidates ts) ∧
  pack ts slots buffer
  = foldl (offer_task (timedelta_minutes buffer))
          (ts, stable_sort wider_first slots) (candidates ts) ∧
  candidates abc_tasks = [2; 0; 1]%nat ∧
  pack abc_tasks [(at_hour 8, at_hour 10)] 0
  = ([set_schedule (at_hour 9 + timedelta_minutes 30) (at_hour 10)
                   (new_task "A" 1 30);
      new_task "B" 2 60;
      set_schedule (at_hour 8) (at_hour 9 + timedelta_minutes 30)
                   (new_task "C" 1 90)],
     []).
Proof.
  split; [apply candidates_elem|].
  split; [apply candidates_NoDup|].
  split; [apply candidates_sorted|].
  split; [apply pack_candidates|].
  split; by vm_compute.
Qed.

(** C4, the claim as stated fails: a completed task that was never
    scheduled has [scheduled == false] and is no candidate; the packer
    leaves it unscheduled although the slot has room for it. *)
Lemma completed_task_is_no_candidate :
  pack [done_task] [(at_hour 8, at_hour 10)] 0
  = ([done_task], [(at_hour 8, at_hour 10)]) ∧
  ¬ (∀ k, k ∈ candidates [done_task]
          ↔ ∃ t, [done_task] !! k = Some t ∧ scheduled t = false).
Proof.
  split; [by vm_compute|].
  intros H. destruct (H 0%nat) as [_ H0].
  assert (0%nat ∈ candidates [done_task]) as Hin.
  { apply H0. by exists done_task. }
  vm_compute in Hin. by apply elem_of_nil in Hin.
Qed.

(** C7: within a run no task that is scheduled is scheduled again: the
    prioritized list holds no task twice, and a task that is scheduled
    at the start, or at any point of the run, has its final record from
    then on.  A task that is scheduled or completed at the start is left
    as it is; so packing a store whose uncompleted tasks are all
    scheduled changes nothing in it, whatever the free slots. *)
Theorem pack_skips_scheduled (ts : list task) (slots : list interval)
    (buffer : Z) :
  NoDup (get_prioritized_tasks ts) ∧
  (∀ done todo k t,
     get_prioritized_tasks ts = done ++ todo →
     (foldl (schedule_task (timedelta_minutes buffer))
            (ts, stable_sort wider_first slots) done).1 !! k = Some t →
     scheduled t = true →
     (pack ts slots buffer).1 !! k = Some t) ∧
  (∀ k t, ts !! k = Some t → scheduled t = true ∨ completed t = true →
          (pack ts slots buffer).1 !! k = Some t) ∧
  ((∀ k t, ts !! k = Some t → completed t = false → scheduled t = true) →
   (pack ts slots buffer).1 = ts).
Proof.
  assert (∀ k t, ts !! k = Some t → scheduled t = true ∨ completed t = true →
                 (pack ts slots buffer).1 !! k = Some t) as Hkeep.
  { intros k t Hl Hsc. apply foldl_schedule_task_keeps; [done|].
    destruct Hsc as [Hs|Hc]; [by left|right].
    rewrite get_prioritized_tasks_elem. intros (t' & Hl' & Hc').
    congruence. }
  split; [apply get_prioritized_tasks_NoDup|].
  split; [|split; [done|]].
  - intros done todo k t Hsplit Hl Hs. unfold pack.
    rewrite Hsplit, foldl_app.
    apply foldl_schedule_task_keeps; [done|by left].
  - intros Hall. apply list_eq. intros k.
    destruct (ts !! k) as [t|] eqn:Hl.
    + apply Hkeep; [done|].
      destruct (completed t) eqn:Hc; [by right|left; eauto].
    + apply lookup_ge_None. apply lookup_ge_None in Hl.
      unfold pack. by rewrite foldl_schedule_task_length.
Qed.

Lemma pack_skips_scheduled_witness :
  (pack (tasks two_task_state) [(at_hour 8, at_hour 10)] 5).1 !! 1%nat
  = tasks two_task_state !! 1%nat.
Proof.
  apply (proj1 (proj2 (proj2
           (pack_skips_scheduled (tasks two_task_state)
                                 [(at_hour 8, at_hour 10)] 5)))).
  - reflexivity.
  - left. reflexivity.
Defined.

(** ** One placement *)

Lemma delete_insert_same {A} (l : list A) (i : nat) (x : A) :
  delete i (<[i := x]> l) = delete i l.
Proof.
  rewrite !delete_take_drop, take_insert_ge, drop_insert_lt by lia. done.
Qed.

Lemma timedelta_minutes_add (a b : Z) :
  timedelta_minutes a + timedelta_minutes b = timedelta_minutes (a + b).
Proof. unfold timedelta_minutes. lia. Qed.

(** What an iteration does once the first fitting slot is known. *)
Lemma schedule_task_placed (buffer : Z) (ts : list task)
    (slots : list interval) (k i : nat) (t : task) (s e : Z) :
  ts !! k = Some t → scheduled t = false →
  first_fit (timedelta_minutes (duration t + buffer)) slots = Some (i, (s, e)) →
  schedule_task (timedelta_minutes buffer) (ts, slots) k
  = (<[k := set_schedule s (s + timedelta_minutes (duration t + buffer)) t]> ts,
     if decide (e - (s + timedelta_minutes (duration t + buffer)) = 0)
     then delete i slots
     else <[i := (s + timedelta_minutes (duration t + buffer), e)]> slots).
Proof.
  intros Hl Hs Hfit. unfold schedule_task, place_task.
  change ((ts, slots).1) with ts. rewrite Hl, Hs.
  rewrite timedelta_minutes_add, Hfit.
  apply first_fit_Some in Hfit as (_ & Hf & _).
  unfold fits in Hf. simpl in Hf.
  f_equal. case_decide as Hw.
  - destruct (_ >=? e) eqn:E; [apply delete_insert_same|lia].
  - destruct (_ >=? e) eqn:E; [lia|done].
Qed.

Lemma schedule_task_unplaced (buffer : Z) (ts : list task)
    (slots : list interval) (k : nat) (t : task) :
  ts !! k = Some t →
  first_fit (timedelta_minutes (duration t + buffer)) slots = None →
  schedule_task (timedelta_minutes buffer) (ts, slots) k = (ts, slots).
Proof.
  intros Hl Hfit. unfold schedule_task, place_task.
  change ((ts, slots).1) with ts. rewrite Hl.
  destruct (scheduled t); [done|].
  by rewrite timedelta_minutes_add, Hfit.
Qed.

Ltac minutes := unfold fits, at_hour, timedelta_hours, timedelta_minutes in *;
                simpl in *; try lia.

(** C3 (as the code has it): when the packer places a task in the slot
    at index [i] with bounds [(s, e)], the first one that fits, it sets
    [start_time = s], [end_time = s + duration + buffer] and
    [scheduled = true], leaves the other fields, replaces slot [i] by
    [(s + duration + buffer, e)] and removes it when nothing of it is
    left.  With duration 30, buffer 5 and one slot of 60 minutes the
    reserved span is 35 minutes and the slot left over starts at
    [slot_start + 35]: a second task of 20 minutes starts there, while a
    second task of 30 minutes, which needs 35 of the 25 minutes left,
    stays unscheduled. *)
Theorem placement_reserves_duration_and_buffer (buffer : Z)
    (ts : list task) (slots : list interval) (k i : nat) (t : task)
    (s e : Z) :
  ts !! k = Some t → scheduled t = false →
  slots !! i = Some (s, e) →
  fits (timedelta_minutes (duration t + buffer)) (s, e) →
  (∀ j sl, (j < i)%nat → slots !! j = Some sl →
           ¬ fits (timedelta_minutes (duration t + buffer)) sl) →
  schedule_task (timedelta_minutes buffer) (ts, slots) k
  = (<[k := mkTask (title t) (priority t) (duration t) (category t) true
                   (Some s)
                   (Some (s + timedelta_minutes (duration t + buffer)))
                   (completed t)]> ts,
     if decide (e - (s + timedelta_minutes (duration t + buffer)) = 0)
     then delete i slots
     else <[i := (s + timedelta_minutes (duration t + buffer), e)]> slots) ∧
  (∀ s0,
     pack short_second_tasks [(s0, s0 + timedelta_minutes 60)] 5
     = ([set_schedule s0 (s0 + timedelta_minutes 35) (new_task "first" 1 30);
         set_schedule (s0 + timedelta_minutes 35) (s0 + timedelta_minutes 60)
                      (new_task "second" 1 20)],
        [])) ∧
  (∀ s0,
     pack twin_tasks [(s0, s0 + timedelta_minutes 60)] 5
     = ([set_schedule s0 (s0 + timedelta_minutes 35) (new_task "first" 1 30);
         new_task "second" 1 30],
        [(s0 + timedelta_minutes 35, s0 + timedelta_minutes 60)])).
Proof.
  intros Hl Hs Hi Hfit Hfirst. split; [|split].
  - apply schedule_task_placed; [done..|].
    by apply first_fit_complete.
  - intros s0. unfold pack.
    change (get_prioritized_tasks short_second_tasks) with [0; 1]%nat.
    simpl foldl.
    rewrite (schedule_task_placed 5 _ _ 0 0 (new_task "first" 1 30)
               s0 (s0 + timedelta_minutes 60)); [|done..|].
    2:{ apply first_fit_complete; [done|minutes|lia]. }
    case_decide; [minutes|].
    rewrite (schedule_task_placed 5 _ _ 1 0 (new_task "second" 1 20)
               (s0 + timedelta_minutes 35) (s0 + timedelta_minutes 60));
      [|done..|].
    2:{ apply first_fit_complete; [done|minutes|lia]. }
    case_decide; [|minutes].
    change (timedelta_minutes (duration (new_task "second" 1 20) + 5))
      with (timedelta_minutes 25).
    replace (s0 + timedelta_minutes 35 + timedelta_minutes 25)
      with (s0 + timedelta_minutes 60) by (unfold timedelta_minutes; lia).
    reflexivity.
  - intros s0. unfold pack.
    change (get_prioritized_tasks twin_tasks) with [0; 1]%nat.
    simpl foldl.
    rewrite (schedule_task_placed 5 _ _ 0 0 (new_task "first" 1 30)
               s0 (s0 + timedelta_minutes 60)); [|done..|].
    2:{ apply first_fit_complete; [done|minutes|lia]. }
    case_decide; [minutes|].
    rewrite (schedule_task_unplaced 5 _ _ 1 (new_task "second" 1 30));
      [|done|].
    2:{ apply first_fit_None. repeat constructor. minutes. }
    reflexivity.
Qed.

Lemma placement_reserves_duration_and_buffer_witness :
  schedule_task (timedelta_minutes 5)
                (twin_tasks, [(at_hour 8, at_hour 9)]) 0
  = ([set_schedule (at_hour 8) (at_hour 8 + timedelta_minutes 35)
                   (new_task "first" 1 30);
      new_task "second" 1 30],
     [(at_hour 8 + timedelta_minutes 35, at_hour 9)]).
Proof.
  apply (proj1 (placement_reserves_duration_and_buffer 5 twin_tasks
                  [(at_hour 8, at_hour 9)] 0 0 (new_task "first" 1 30)
                  (at_hour 8) (at_hour 9)
                  eq_refl eq_refl eq_refl
                  ltac:(vm_compute; discriminate)
                  ltac:(intros j sl Hj; exfalso; revert Hj; apply Nat.nlt_0_r))).
Defined.

(** C3, the claim as stated fails: in a slot of 60 minutes, 8:00-9:00,
    with buffer 5, the second of two tasks of 30 minutes does not start
    at [slot_start + 35]; it is not placed at all. *)
Lemma second_identical_task_unplaced :
  (pack twin_tasks [(at_hour 8, at_hour 9)] 5).1 !! 1%nat
  = Some (new_task "second" 1 30) ∧
  ¬ (∃ t2, (pack twin_tasks [(at_hour 8, at_hour 9)] 5).1 !! 1%nat = Some t2 ∧
           start_time t2 = Some (at_hour 8 + timedelta_minutes 35)).
Proof.
  split; [by vm_compute|].
  intros (t2 & Hl & Hst). vm_compute in Hl. injection Hl as <-. done.
Qed.

(** C5 (as the code has it): a task of 100 minutes iterated before a
    task of 10 minutes, a slot of 90 and a slot of 20 minutes in either
    input order, buffer 0.  The large task fits no slot and stays
    unscheduled; the small task takes the first slot that fits in
    widest-first order, which is the slot of 90 minutes: it starts at
    that slot's start, the slot shrinks to its last 80 minutes, and the
    slot of 20 minutes is left untouched. *)
Theorem small_task_takes_widest_slot (s90 s20 : Z) :
  let result :=
    ([new_task "large" 1 100;
      set_schedule s90 (s90 + timedelta_minutes 10) (new_task "small" 1 10)],
     [(s90 + timedelta_minutes 10, s90 + timedelta_minutes 90);
      (s20, s20 + timedelta_minutes 20)]) in
  pack large_small_tasks
       [(s90, s90 + timedelta_minutes 90); (s20, s20 + timedelta_minutes 20)] 0
  = result ∧
  pack large_small_tasks
       [(s20, s20 + timedelta_minutes 20); (s90, s90 + timedelta_minutes 90)] 0
  = result.
Proof.
  assert (∀ slots,
    stable_sort wider_first slots
    = [(s90, s90 + timedelta_minutes 90); (s20, s20 + timedelta_minutes 20)] →
    pack large_small_tasks slots 0
    = ([new_task "large" 1 100;
        set_schedule s90 (s90 + timedelta_minutes 10) (new_task "small" 1 10)],
       [(s90 + timedelta_minutes 10, s90 + timedelta_minutes 90);
        (s20, s20 + timedelta_minutes 20)])) as Hpack.
  { intros slots Hsort. unfold pack. rewrite Hsort.
    change (get_prioritized_tasks large_small_tasks) with [0; 1]%nat.
    simpl foldl.
    rewrite (schedule_task_unplaced 0 _ _ 0 (new_task "large" 1 100));
      [|done|].
    2:{ apply first_fit_None. repeat constructor; minutes. }
    rewrite (schedule_task_placed 0 _ _ 1 0 (new_task "small" 1 10)
               s90 (s90 + timedelta_minutes 90)); [|done..|].
    2:{ apply first_fit_complete; [done|minutes|lia]. }
    case_decide; [minutes|]. reflexivity. }
  split; apply Hpack; simpl; unfold wider_first; simpl.
  - destruct (_ <=? _) eqn:E; [done|minutes].
  - destruct (_ <=? _) eqn:E; [minutes|done].
Qed.

(** C5, the claim as stated fails: with the slots 8:00-9:30 and
    10:00-10:20 the small task is not placed at 10:00, the start of the
    slot of 20 minutes, and the slot of 90 minutes is not among the
    slots left. *)
Lemma small_task_not_in_narrow_slot :
  let run :=
    pack large_small_tasks
         [(at_hour 8, at_hour 8 + timedelta_minutes 90);
          (at_hour 10, at_hour 10 + timedelta_minutes 20)] 0 in
  ¬ (∃ t, run.1 !! 1%nat = Some t ∧ start_time t = Some (at_hour 10)) ∧
  (at_hour 8, at_hour 8 + timedelta_minutes 90) ∉ run.2.
Proof.
  split.
  - intros (t & Hl & Hst). vm_compute in Hl. injection Hl as <-. done.
  - intros Hin. vm_compute in Hin.
    apply list_elem_of_In in Hin. simpl in Hin.
    destruct Hin as [H|[H|[]]]; discriminate H.
Qed.

(** ** No free time *)





(** ** Conflicts *)

Lemma apart_sym (a b : interval) : apart a b → apart b a.
Proof. unfold apart, overlaps. lia. Qed.

Lemma apart_sub_l (a a' b : interval) :
  apart a b → a.1 ≤ a'.1 → a'.2 ≤ a.2 → apart a' b.
Proof. unfold apart, overlaps. lia. Qed.

Lemma apart_sub_r (a b b' : interval) :
  apart a b → b.1 ≤ b'.1 → b'.2 ≤ b.2 → apart a b'.
Proof. unfold apart, overlaps. lia. Qed.

Lemma apart_split (s e d : Z) : 0 ≤ d → apart (s, s + d) (s + d, e).
Proof. unfold apart, overlaps. simpl. lia. Qed.

(** The two outcomes of an iteration. *)
Lemma schedule_task_cases (bt : Z) (ts : list task) (slots : list interval)
    (k : nat) :
  schedule_task bt (ts, slots) k = (ts, slots) ∨
  ∃ t i s e,
    ts !! k = Some t ∧ scheduled t = false ∧
    slots !! i = Some (s, e) ∧
    fits (timedelta_minutes (duration t) + bt) (s, e) ∧
    schedule_task bt (ts, slots) k
    = (<[k := set_schedule s (s + (timedelta_minutes (duration t) + bt)) t]> ts,
       take i slots
         ++ (if s + (timedelta_minutes (duration t) + bt) >=? e then []
             else [(s + (timedelta_minutes (duration t) + bt), e)])
         ++ drop (S i) slots).
Proof.
  unfold schedule_task, place_task. change ((ts, slots).1) with ts.
  destruct (ts !! k) as [t|] eqn:Hl; [|by left].
  destruct (scheduled t) eqn:Hs; [by left|].
  destruct (first_fit _ slots) as [[i [s e]]|] eqn:Hfit; [|by left].
  right. apply first_fit_Some in Hfit as (Hi & Hf & _).
  exists t, i, s, e. repeat (split; [done|]).
  f_equal. by apply consume_slot.
Qed.

(** Replacing a slot by a part of it keeps what holds of every slot. *)
Lemma Forall_consumed (P : interval → Prop) (slots : list interval)
    (i : nat) (s e d : Z) :
  slots !! i = Some (s, e) →
  (P (s, e) → P (s + d, e)) →
  Forall P slots →
  Forall P (take i slots
              ++ (if s + d >=? e then [] else [(s + d, e)])
              ++ drop (S i) slots).
Proof.
  intros Hi Hsub Hall.
  rewrite <- (take_drop_middle slots i (s, e) Hi) in Hall.
  rewrite Forall_app, Forall_cons in Hall. destruct Hall as (H1 & H2 & H3).
  rewrite !Forall_app. split; [done|]. split; [|done].
  destruct (_ >=? e); constructor; [auto|constructor].
Qed.

Lemma StronglySorted_consumed (slots : list interval) (i : nat) (s e d : Z) :
  slots !! i = Some (s, e) → 0 ≤ d →
  StronglySorted apart slots →
  StronglySorted apart
    (take i slots ++ (if s + d >=? e then [] else [(s + d, e)])
       ++ drop (S i) slots).
Proof.
  intros Hi Hd Hs.
  rewrite <- (take_drop_middle slots i (s, e) Hi) in Hs.
  rewrite StronglySorted_app, StronglySorted_cons in Hs.
  destruct Hs as (Hcross & H1 & H2 & H3).
  rewrite StronglySorted_app. split; [|split; [done|]].
  - intros a Ha b Hb. rewrite elem_of_app in Hb.
    destruct Hb as [Hb|Hb].
    + destruct (_ >=? e); [by apply elem_of_nil in Hb|].
      apply list_elem_of_singleton in Hb as ->.
      apply (apart_sub_r a (s, e)); [|simpl; lia..].
      apply Hcross; [done|left].
    + apply Hcross; [done|by right].
  - destruct (_ >=? e); [done|]. simpl. constructor; [done|].
    eapply Forall_impl; [exact H2|].
    intros b Hb. apply (apart_sub_l (s, e)); [done|simpl; lia..].
Qed.

Lemma scheduled_by_run_insert (ts0 ts : list task) (k j : nat) (t : task)
    (s f : Z) (r : interval) :
  ts !! k = Some t →
  scheduled_by_run ts0 (<[k := set_schedule s f t]> ts) j r →
  (j = k ∧ r = (s, f)) ∨ (j ≠ k ∧ scheduled_by_run ts0 ts j r).
Proof.
  intros Hl (u & u' & H0 & Hs0 & H1 & Hs1 & Hr).
  destruct (decide (j = k)) as [->|Hne].
  - left. split; [done|].
    rewrite list_lookup_insert_eq in H1 by (by eapply lookup_lt_Some).
    injection H1 as <-. simpl in Hr. by injection Hr as <-.
  - right. split; [done|].
    rewrite list_lookup_insert_ne in H1 by done.
    by exists u, u'.
Qed.

(** An iteration of the packing loop keeps the invariant of the run. *)
Lemma schedule_task_invariant (busy : list interval) (bt : Z)
    (ts0 : list task) (st : list task * list interval) (k : nat) :
  Forall (λ t, 0 ≤ timedelta_minutes (duration t) + bt) ts0 →
  run_invariant busy bt ts0 st →
  run_invariant busy bt ts0 (schedule_task bt st k).
Proof.
  intros Hpos Hinv. destruct st as [ts slots].
  destruct (schedule_task_cases bt ts slots k)
    as [->|(t & i & s & e & Hl & Hsched & Hi & Hfit & ->)]; [done|].
  destruct Hinv as (Hss & Hbusy & Hun & Hres & Hap & Hpair). simpl in *.
  set (d := timedelta_minutes (duration t) + bt) in *.
  assert (ts0 !! k = Some t) as Hl0 by by apply Hun.
  assert (0 ≤ d) as Hd.
  { rewrite Forall_forall in Hpos. apply (Hpos t).
    by eapply list_elem_of_lookup_2. }
  unfold fits in Hfit. simpl in Hfit.
  assert (Forall (apart (s, e)) busy) as Hse_busy.
  { by apply (Forall_lookup_1 _ _ _ _ Hbusy Hi). }
  assert (∀ r, Forall (apart r) slots → apart r (s, e)) as Hslot.
  { intros r Hr. by apply (Forall_lookup_1 _ _ _ _ Hr Hi). }
  pose proof Hss as Hss'.
  rewrite <- (take_drop_middle slots i (s, e) Hi) in Hss'.
  rewrite StronglySorted_app, StronglySorted_cons in Hss'.
  destruct Hss' as (Hcross & _ & Hafter & _).
  assert (Forall (apart (s, s + d))
            (take i slots ++ (if s + d >=? e then [] else [(s + d, e)])
               ++ drop (S i) slots)) as Hnew_slots.
  { rewrite !Forall_app. split; [|split].
    - rewrite Forall_forall. intros a Ha. apply apart_sym.
      apply (apart_sub_r a (s, e)); [|simpl; lia..].
      apply Hcross; [done|left].
    - destruct (_ >=? e); constructor; [|constructor].
      by apply apart_split.
    - eapply Forall_impl; [exact Hafter|].
      intros b Hb. apply (apart_sub_l (s, e)); [done|simpl; lia..]. }
  assert (Forall (apart (s, s + d)) busy) as Hnew_busy.
  { eapply Forall_impl; [exact Hse_busy|].
    intros b Hb. apply (apart_sub_l (s, e)); [done|simpl; lia..]. }
  unfold run_invariant. cbn [fst snd].
  split; [by apply StronglySorted_consumed|].
  split.
  { apply Forall_consumed; [done| |done].
    intros Hall. eapply Forall_impl; [exact Hall|].
    intros b Hb. apply (apart_sub_l (s, e)); [done|simpl; lia..]. }
  split.
  { intros j u Hj Hu. destruct (decide (j = k)) as [->|Hne].
    - rewrite list_lookup_insert_eq in Hj by (by eapply lookup_lt_Some).
      by injection Hj as <-.
    - rewrite list_lookup_insert_ne in Hj by done. by apply Hun. }
  split.
  { intros j u u' Hj0 Hu Hj Hu'. destruct (decide (j = k)) as [->|Hne].
    - rewrite list_lookup_insert_eq in Hj by (by eapply lookup_lt_Some).
      injection Hj as <-. rewrite Hl0 in Hj0. injection Hj0 as <-.
      by exists s.
    - rewrite list_lookup_insert_ne in Hj by done. by eapply Hres. }
  split.
  { intros j r Hr.
    apply (scheduled_by_run_insert _ _ _ _ _ _ _ _ Hl) in Hr
      as [[-> ->]|[Hne Hr]]; [done|].
    destruct (Hap j r Hr) as [Hr_slots Hr_busy]. split; [|done].
    apply Forall_consumed; [done| |done].
    intros Hb. apply (apart_sub_r r (s, e)); [done|simpl; lia..]. }
  intros j j' r r' Hjj Hr Hr'.
  apply (scheduled_by_run_insert _ _ _ _ _ _ _ _ Hl) in Hr
    as [[-> ->]|[Hne Hr]];
  apply (scheduled_by_run_insert _ _ _ _ _ _ _ _ Hl) in Hr'
    as [[-> ->]|[Hne' Hr']].
  - done.
  - apply apart_sym. apply (apart_sub_r r' (s, e)); [|simpl; lia..].
    apply Hslot. by apply (Hap j' r' Hr').
  - apply (apart_sub_r r (s, e)); [|simpl; lia..].
    apply Hslot. by apply (Hap j r Hr).
  - by apply (Hpair j j').
Qed.

Lemma foldl_schedule_task_invariant (busy : list interval) (bt : Z)
    (ts0 : list task) (l : list nat) (st : list task * list interval) :
  Forall (λ t, 0 ≤ timedelta_minutes (duration t) + bt) ts0 →
  run_invariant busy bt ts0 st →
  run_invariant busy bt ts0 (foldl (schedule_task bt) st l).
Proof.
  intros Hpos. revert st. induction l as [|k l IH]; intros st Hinv; [done|].
  simpl. apply IH. by apply schedule_task_invariant.
Qed.

Lemma scheduled_by_run_same (ts : list task) (k : nat) (r : interval) :
  ¬ scheduled_by_run ts ts k r.
Proof. intros (t & t' & H0 & Hs0 & H1 & Hs1 & _). congruence. Qed.

(** The invariant holds when a run starts on the sorted free slots. *)
Lemma run_invariant_start (busy : list interval) (bt : Z) (ts : list task)
    (day_start day_end : Z) :
  Forall (λ b : interval, b.1 ≤ b.2) busy →
  run_invariant busy bt ts
    (ts, stable_sort wider_first (compute_free_slots busy day_start day_end)).
Proof.
  intros Hbusy. split; [|split; [|split; [|split; [|split]]]]; simpl.
  - eapply StronglySorted_perm;
      [apply apart_sym|symmetry; apply stable_sort_perm|].
    rewrite compute_free_slots_gaps.
    destruct (gaps_chain (stable_sort tuple_le busy) day_start day_end)
      as [Hall Hsorted]; [by rewrite stable_sort_perm|].
    eapply StronglySorted_impl; [|exact Hsorted].
    intros a b Ha Hb [_ Hab].
    rewrite Forall_forall in Hall.
    destruct (Hall a Ha) as [_ Ha'], (Hall b Hb) as [_ Hb'].
    unfold apart, overlaps. lia.
  - rewrite stable_sort_perm. apply compute_free_slots_apart_busy.
  - done.
  - intros k t t' H0 Hs0 H1 Hs1. congruence.
  - intros k r Hr. by apply scheduled_by_run_same in Hr.
  - intros k k' r r' _ Hr. by apply scheduled_by_run_same in Hr.
Qed.

Lemma pack_invariant (busy : list interval) (ts : list task)
    (day_start day_end buffer : Z) :
  Forall (λ b : interval, b.1 ≤ b.2) busy →
  Forall (λ t, 0 ≤ duration t + buffer) ts →
  run_invariant busy (timedelta_minutes buffer) ts
    (pack ts (compute_free_slots busy day_start day_end) buffer).
Proof.
  intros Hbusy Hpos. unfold pack.
  apply foldl_schedule_task_invariant; [|by apply run_invariant_start].
  eapply Forall_impl; [exact Hpos|].
  intros t Ht. simpl in Ht. unfold timedelta_minutes. lia.
Qed.

(** [schedule_tasks] returns whenever the two hours are hours of the day
    and every ['dateTime'] of the calendar converts. *)
Lemma schedule_tasks_runs (fromisoformat : string → option Z) (today : Z)
    (w : state) (busy : list interval) :
  0 ≤ day_start_hour w ≤ 23 → 0 ≤ day_end_hour w ≤ 23 →
  busy_slots_of fromisoformat (calendar_events w) = Some busy →
  is_Some (schedule_tasks fromisoformat today w).
Proof.
  intros Hstart Hend Hbusy. unfold schedule_tasks, time_of_hour.
  replace ((0 <=? day_start_hour w) && (day_start_hour w <=? 23)) with true
    by lia.
  replace ((0 <=? day_end_hour w) && (day_end_hour w <=? 23)) with true
    by lia.
  simpl. destruct (calendar_events w) as [|ev evs] eqn:E; [done|].
  unfold find_free_slots. rewrite Hbusy. done.
Qed.

(** C2 (as the code has it): after a run of [schedule_tasks] over busy
    intervals with [start <= end] and tasks with [duration + buffer >= 0],
    every task that this run scheduled reserves [duration + buffer] from
    its start; the reserved spans of two distinct tasks scheduled by
    this run share no instant, and none of them shares an instant with a
    busy interval.  (The run works on the free time of the calendar
    alone: the spans of tasks scheduled by an earlier run are not taken
    out of it.) *)
Theorem run_schedules_without_conflict (fromisoformat : string → option Z)
    (today : Z) (w w' : state) (busy : list interval) :
  schedule_tasks fromisoformat today w = Some w' →
  busy_slots_of fromisoformat (calendar_events w) = Some busy →
  Forall (λ b : interval, b.1 ≤ b.2) busy →
  Forall (λ t, 0 ≤ duration t + buffer_minutes w) (tasks w) →
  (∀ k t t', tasks w !! k = Some t → scheduled t = false →
             tasks w' !! k = Some t' → scheduled t' = true →
             ∃ s, reserved t'
                  = Some (s, s + timedelta_minutes
                                   (duration t + buffer_minutes w))) ∧
  (∀ k r, scheduled_by_run (tasks w) (tasks w') k r →
          Forall (apart r) busy) ∧
  (∀ k k' r r', k ≠ k' →
                scheduled_by_run (tasks w) (tasks w') k r →
                scheduled_by_run (tasks w) (tasks w') k' r' →
                apart r r').
Proof.
  intros Hrun Hbusy_of Hbusy Hpos. unfold schedule_tasks in Hrun.
  destruct (time_of_hour (day_start_hour w)) as [hs|]; [|done].
  destruct (time_of_hour (day_end_hour w)) as [he|]; [|done].
  simpl in Hrun. destruct (calendar_events w) as [|ev evs] eqn:Hev.
  - injection Hrun as <-. simpl.
    split; [intros k t t' H0 Hs0 H1 Hs1; congruence|].
    split; [intros k r Hr|intros k k' r r' _ Hr];
      by apply scheduled_by_run_same in Hr.
  - unfold find_free_slots in Hrun. rewrite Hbusy_of in Hrun.
    simpl in Hrun. injection Hrun as <-. simpl.
    destruct (pack_invariant busy (tasks w) (today + hs) (today + he)
                (buffer_minutes w) Hbusy Hpos)
      as (_ & _ & _ & Hres & Hap & Hpair).
    split; [|split].
    + intros k t t' H0 Hs0 H1 Hs1.
      destruct (Hres k t t' H0 Hs0 H1 Hs1) as [s Hs].
      exists s. by rewrite <- timedelta_minutes_add.
    + intros k r Hr. by apply (Hap k r Hr).
    + exact Hpair.
Qed.

Lemma run_schedules_without_conflict_witness :
  apart (at_hour 13, at_hour 13 + timedelta_minutes 35)
        (at_hour 13 + timedelta_minutes 35, at_hour 13 + timedelta_minutes 70).
Proof.
  apply (proj2 (proj2
           (run_schedules_without_conflict day_fromisoformat 0
              two_new_state two_new_result [(at_hour 12, at_hour 13)]
              ltac:(vm_compute; reflexivity)
              ltac:(vm_compute; reflexivity)
              ltac:(repeat constructor; vm_compute; discriminate)
              ltac:(repeat constructor; vm_compute; discriminate)))
         0%nat 1%nat).
  - discriminate.
  - exists (new_task "A" 1 30),
      (set_schedule (at_hour 13) (at_hour 13 + timedelta_minutes 35)
                    (new_task "A" 1 30)).
    repeat split; reflexivity.
  - exists (new_task "B" 1 30),
      (set_schedule (at_hour 13 + timedelta_minutes 35)
                    (at_hour 13 + timedelta_minutes 70) (new_task "B" 1 30)).
    repeat split; reflexivity.
Defined.

(** C2, the claim as stated fails for a run after an earlier run: task A
    is added and scheduled next to a lunch meeting, then task B is added
    and the scheduler is run again.  The second run gives B the span
    13:00-13:35 that A holds since the first run: two distinct scheduled
    tasks whose reserved spans overlap. *)
Lemma second_run_double_books :
  ∃ w1 w2 ta tb,
    schedule_tasks day_fromisoformat 0 (add_task "A" 1 30 "Work" lunch_state)
      = Some w1 ∧
    schedule_tasks day_fromisoformat 0 (add_task "B" 1 30 "Work" w1)
      = Some w2 ∧
    tasks w2 !! 0%nat = Some ta ∧ tasks w2 !! 1%nat = Some tb ∧
    scheduled ta = true ∧ scheduled tb = true ∧
    reserved ta = Some (at_hour 13, at_hour 13 + timedelta_minutes 35) ∧
    reserved tb = Some (at_hour 13, at_hour 13 + timedelta_minutes 35) ∧
    ¬ apart (at_hour 13, at_hour 13 + timedelta_minutes 35)
            (at_hour 13, at_hour 13 + timedelta_minutes 35).
Proof.
  eexists _, _, _, _.
  split; [vm_compute; reflexivity|].
  split; [vm_compute; reflexivity|].
  split; [reflexivity|]. split; [reflexivity|].
  split; [reflexivity|]. split; [reflexivity|].
  split; [reflexivity|]. split; [reflexivity|].
  by vm_compute.
Qed.

(** * Further properties of the code *)

(** ** Free slots *)

Lemma gaps_upper (l : list interval) (cur de : Z) :
  Forall (λ b : interval, b.1 ≤ de) l →
  Forall (λ sl : interval, sl.2 ≤ de) (gaps l cur de).
Proof.
  intros Hl. revert cur.
  induction Hl as [|[s e] l Hs Hl IH]; intros cur; simpl in *.
  - destruct (cur <? de); repeat constructor. simpl. lia.
  - apply Forall_app. split; [|apply IH].
    destruct (cur <? s); repeat constructor. simpl. lia.
Qed.

Lemma within_overlaps (t : Z) (a b : interval) :
  within t a → within t b → overlaps a b = true.
Proof. unfold within, overlaps. lia. Qed.

(** X1: when no busy interval starts after [day_end], the free slots
    lie inside the day window and hold exactly the instants of the
    window that no busy interval covers. *)
Theorem free_slots_fill_window (busy_slots : list interval)
    (day_start day_end : Z) :
  Forall (λ b : interval, b.1 ≤ day_end) busy_slots →
  Forall (λ sl, inside sl (day_start, day_end))
         (compute_free_slots busy_slots day_start day_end) ∧
  ∀ t, covered t (compute_free_slots busy_slots day_start day_end)
       ↔ day_start ≤ t < day_end ∧ ¬ covered t busy_slots.
Proof.
  intros Hde. split; [|intros t; by apply compute_free_slots_covered].
  rewrite compute_free_slots_gaps.
  pose proof (gaps_apart_busy (stable_sort tuple_le busy_slots)
                day_start day_end (sort_busy_by_start busy_slots)) as Hlow.
  assert (Forall (λ sl : interval, sl.2 ≤ day_end)
                 (gaps (stable_sort tuple_le busy_slots) day_start day_end))
    as Hup.
  { apply gaps_upper. by rewrite stable_sort_perm. }
  rewrite Forall_forall in Hlow, Hup |- *. intros sl Hsl.
  split; simpl; [by apply Hlow|by apply Hup].
Qed.

Lemma free_slots_fill_window_witness :
  Forall (λ sl, inside sl (at_hour 8, at_hour 20))
         (compute_free_slots morning_busy (at_hour 8) (at_hour 20)) ∧
  ∀ t, covered t (compute_free_slots morning_busy (at_hour 8) (at_hour 20))
       ↔ at_hour 8 ≤ t < at_hour 20 ∧ ¬ covered t morning_busy.
Proof.
  apply (free_slots_fill_window morning_busy (at_hour 8) (at_hour 20)).
  repeat constructor; vm_compute; discriminate.
Defined.

(** X2: whatever the busy intervals and the window are, every free slot
    starts at or after [day_start] and shares no instant with any busy
    interval. *)
Theorem free_slots_avoid_busy (busy_slots : list interval)
    (day_start day_end : Z) :
  Forall (λ sl : interval,
            day_start ≤ sl.1 ∧
            Forall (λ b, overlaps sl b = false) busy_slots)
         (compute_free_slots busy_slots day_start day_end) ∧
  ∀ t, covered t (compute_free_slots busy_slots day_start day_end) →
       ¬ covered t busy_slots.
Proof.
  assert (Forall (λ sl : interval,
            day_start ≤ sl.1 ∧
            Forall (λ b, overlaps sl b = false) busy_slots)
         (compute_free_slots busy_slots day_start day_end)) as Hall.
  { rewrite compute_free_slots_gaps.
    eapply Forall_impl;
      [apply gaps_apart_busy, sort_busy_by_start|].
    intros sl [Hlow Hap]. split; [done|].
    rewrite stable_sort_perm in Hap. exact Hap. }
  split; [done|].
  intros t Hfree Hbusy. unfold covered in *.
  rewrite Exists_exists in Hfree, Hbusy.
  destruct Hfree as (sl & Hsl & Ht), Hbusy as (b & Hb & Ht').
  rewrite Forall_forall in Hall. destruct (Hall sl Hsl) as [_ Hap].
  rewrite Forall_forall in Hap. specialize (Hap b Hb).
  by rewrite (within_overlaps t sl b) in Hap.
Qed.

(** The busy list is sorted by a total order, so its sorted form does
    not depend on the order it had. *)
Lemma sort_busy_perm (l l' : list interval) :
  l ≡ₚ l' → stable_sort tuple_le l = stable_sort tuple_le l'.
Proof.
  intros Hp.
  assert (∀ l : list interval,
            StronglySorted (λ a b, tuple_le a b = true)
                           (stable_sort tuple_le l)) as Hsorted.
  { clear. intros l. induction l as [|x l IH]; simpl; [constructor|].
    apply insert_sorted_sorted; try done.
    - intros y _. unfold tuple_le. lia.
    - intros y z _ _. unfold tuple_le. lia. }
  apply (StronglySorted_unique_strong (λ a b, tuple_le a b = true));
    [|apply Hsorted..|by rewrite !stable_sort_perm].
  intros [a1 a2] [b1 b2] _ _. unfold tuple_le. simpl.
  intros H1 H2. f_equal; lia.
Qed.

Lemma busy_slots_of_perm (fromisoformat : string → option Z)
    (events events' : list event) :
  events ≡ₚ events' →
  option_Forall2 (≡ₚ) (busy_slots_of fromisoformat events)
                      (busy_slots_of fromisoformat events').
Proof.
  intros Hp.
  induction Hp as [|e l l' Hp IH|e e' l|l l' l'' _ IH1 _ IH2]; simpl.
  - by constructor.
  - destruct (truthy _ && truthy _); [|done].
    destruct (ev_start e !! "dateTime" ≫= _) as [s|]; simpl; [|constructor].
    destruct (ev_end e !! "dateTime" ≫= _) as [f|]; simpl; [|constructor].
    destruct IH as [b b' Hb|]; simpl; constructor. by rewrite Hb.
  - destruct (truthy (ev_start e' !! _) && truthy _),
             (truthy (ev_start e !! _) && truthy _);
      try destruct (ev_start e' !! "dateTime" ≫= _) as [s'|];
      try destruct (ev_end e' !! "dateTime" ≫= _) as [f'|];
      try destruct (ev_start e !! "dateTime" ≫= _) as [s|];
      try destruct (ev_end e !! "dateTime" ≫= _) as [f|];
      destruct (busy_slots_of fromisoformat l); simpl; constructor;
      try done. apply Permutation_swap.
  - destruct IH1 as [b b' Hb|]; inversion IH2; subst; constructor.
    by etrans.
Qed.

(** X3: [find_free_slots] does not depend on the order of the events it
    is given (the feed is sorted by start before it is stored), nor
    [compute_free_slots] on the order of the busy intervals: permuting
    the input gives the same free slots, and the same failure. *)
Theorem free_slots_order_independent (fromisoformat : string → option Z)
    (events events' : list event) (busy busy' : list interval)
    (day_start day_end : Z) :
  (busy ≡ₚ busy' →
   compute_free_slots busy day_start day_end
   = compute_free_slots busy' day_start day_end) ∧
  (events ≡ₚ events' →
   find_free_slots fromisoformat events day_start day_end
   = find_free_slots fromisoformat events' day_start day_end).
Proof.
  assert (∀ b b', b ≡ₚ b' →
            compute_free_slots b day_start day_end
            = compute_free_slots b' day_start day_end) as Hbusy.
  { intros b b' Hp. unfold compute_free_slots.
    by rewrite (sort_busy_perm b b' Hp). }
  split; [apply Hbusy|].
  intros Hp. unfold find_free_slots.
  destruct (busy_slots_of_perm fromisoformat events events' Hp)
    as [b b' Hb|]; simpl; [|done].
  f_equal. by apply Hbusy.
Qed.

Lemma free_slots_order_independent_witness :
  compute_free_slots [(at_hour 11, at_hour 12); (at_hour 9, at_hour 10)]
                     (at_hour 8) (at_hour 20)
  = compute_free_slots [(at_hour 9, at_hour 10); (at_hour 11, at_hour 12)]
                       (at_hour 8) (at_hour 20) ∧
  find_free_slots day_fromisoformat
    [timed_event "2026-11-04T15:00:00Z" "2026-11-04T16:30:00Z";
     all_day_event "2026-11-04" "2026-11-05";
     timed_event "2026-11-04T09:00:00Z" "2026-11-04T10:00:00Z"]
    (at_hour 8) (at_hour 20)
  = find_free_slots day_fromisoformat
      [all_day_event "2026-11-04" "2026-11-05";
       timed_event "2026-11-04T09:00:00Z" "2026-11-04T10:00:00Z";
       timed_event "2026-11-04T15:00:00Z" "2026-11-04T16:30:00Z"]
      (at_hour 8) (at_hour 20).
Proof.
  destruct (free_slots_order_independent day_fromisoformat
              [timed_event "2026-11-04T15:00:00Z" "2026-11-04T16:30:00Z";
               all_day_event "2026-11-04" "2026-11-05";
               timed_event "2026-11-04T09:00:00Z" "2026-11-04T10:00:00Z"]
              [all_day_event "2026-11-04" "2026-11-05";
               timed_event "2026-11-04T09:00:00Z" "2026-11-04T10:00:00Z";
               timed_event "2026-11-04T15:00:00Z" "2026-11-04T16:30:00Z"]
              [(at_hour 11, at_hour 12); (at_hour 9, at_hour 10)]
              [(at_hour 9, at_hour 10); (at_hour 11, at_hour 12)]
              (at_hour 8) (at_hour 20)) as [Hbusy Hevents].
  split.
  - apply Hbusy. apply Permutation_swap.
  - apply Hevents. apply (Permutation_app_comm [_] [_; _]).
Defined.

(** X4: when the busy intervals have [start <= end] and none starts
    after [day_end], there is no free slot exactly when the busy
    intervals cover every instant of the day window. *)
Theorem no_free_slot_iff_window_covered (busy_slots : list interval)
    (day_start day_end : Z) :
  Forall (λ b : interval, b.1 ≤ b.2) busy_slots →
  Forall (λ b : interval, b.1 ≤ day_end) busy_slots →
  compute_free_slots busy_slots day_start day_end = []
  ↔ ∀ t, day_start ≤ t < day_end → covered t busy_slots.
Proof.
  intros Hbusy Hde. split; [|by apply compute_free_slots_empty].
  intros Hnil t Ht.
  pose proof (compute_free_slots_covered busy_slots day_start day_end t Hde)
    as Hc.
  rewrite Hnil in Hc.
  destruct (decide (Exists (within t) busy_slots)) as [H|H]; [done|].
  exfalso. assert (covered t []) as Hno by (apply Hc; done).
  by apply Exists_nil in Hno.
Qed.

Lemma no_free_slot_iff_window_covered_witness :
  compute_free_slots [(at_hour 7, at_hour 12); (at_hour 11, at_hour 20)]
                     (at_hour 8) (at_hour 20) = []
  ↔ ∀ t, at_hour 8 ≤ t < at_hour 20 →
         covered t [(at_hour 7, at_hour 12); (at_hour 11, at_hour 20)].
Proof.
  apply (no_free_slot_iff_window_covered
           [(at_hour 7, at_hour 12); (at_hour 11, at_hour 20)]
           (at_hour 8) (at_hour 20)).
  - repeat constructor; vm_compute; discriminate.
  - repeat constructor; vm_compute; discriminate.
Defined.

(** Between a gap and every later one lies the busy interval at whose
    start the earlier gap ends. *)
Lemma gaps_busy_between (l : list interval) (cur de : Z) :
  Forall (λ b : interval, b.1 < b.2) l →
  StronglySorted (λ a b : interval, a.2 < b.1 ∧ covered a.2 l)
                 (gaps l cur de).
Proof.
  intros Hl. revert cur.
  induction Hl as [|[s e] l Hse Hl IH]; intros cur; simpl in *.
  - destruct (cur <? de); repeat constructor.
  - assert (StronglySorted
              (λ a b : interval, a.2 < b.1 ∧ covered a.2 ((s, e) :: l))
              (gaps l (Z.max cur e) de)) as Hrest.
    { eapply StronglySorted_impl; [|apply IH].
      intros a b _ _ [Hab Hcov]. split; [done|]. by right. }
    destruct (cur <? s) eqn:E; simpl; [|done].
    constructor; [done|].
    destruct (gaps_chain l (Z.max cur e) de) as [Hlow _].
    { eapply Forall_impl; [exact Hl|]. simpl. lia. }
    eapply Forall_impl; [exact Hlow|]. simpl. intros b Hb.
    split; [lia|]. left. unfold within. simpl. lia.
Qed.

(** Where gaps start and end: a gap starts at a cursor value, which is
    the first cursor or the end of a busy interval, and ends at the end
    of the window or at the start of a busy interval. *)
Lemma gaps_ends (Q : Z → Prop) (l : list interval) (cur de : Z) :
  Q cur → Forall (λ b : interval, Q b.2) l →
  Forall (λ sl : interval,
            Q sl.1 ∧ (sl.2 = de ∨ ∃ b : interval, b ∈ l ∧ b.1 = sl.2))
         (gaps l cur de).
Proof.
  intros Hcur Hl. revert cur Hcur.
  induction Hl as [|[s e] l He Hl IH]; intros cur Hcur; simpl in *.
  - destruct (cur <? de); [|constructor].
    constructor; [|constructor]. split; [done|by left].
  - apply Forall_app. split.
    + destruct (cur <? s); [|constructor].
      constructor; [|constructor]. split; [done|].
      right. exists (s, e). split; [left|done].
    + eapply Forall_impl; [apply (IH (Z.max cur e))|].
      * destruct (Z.max_spec cur e) as [[_ ->]|[_ ->]]; done.
      * intros sl [HQ [Hr|(b & Hb & Hr)]]; (split; [done|]);
          [by left|right]. exists b. split; [by right|done].
Qed.

(** X5: when every busy interval has [start < end], the free slots are
    maximal, none can be extended at either side: a free slot starts at
    [day_start] or where a busy interval ends, and it ends at [day_end]
    or where a busy interval starts.  So two free slots never touch:
    a free slot ends strictly before every later one starts, and the
    instant at which it ends is busy. *)
Theorem free_slots_never_touch (busy_slots : list interval)
    (day_start day_end : Z) :
  Forall (λ b : interval, b.1 < b.2) busy_slots →
  Forall (λ sl : interval,
            (sl.1 = day_start ∨
             ∃ b : interval, b ∈ busy_slots ∧ b.1 < sl.1 ∧ b.2 = sl.1) ∧
            (sl.2 = day_end ∨
             ∃ b : interval, b ∈ busy_slots ∧ b.1 = sl.2 ∧ sl.2 < b.2))
         (compute_free_slots busy_slots day_start day_end) ∧
  StronglySorted (λ a b : interval, a.2 < b.1 ∧ covered a.2 busy_slots)
                 (compute_free_slots busy_slots day_start day_end).
Proof.
  intros Hbusy. rewrite compute_free_slots_gaps.
  pose proof (stable_sort_perm tuple_le busy_slots) as Hperm.
  assert (Forall (λ b : interval, b.1 < b.2)
                 (stable_sort tuple_le busy_slots)) as Hsorted
    by (by rewrite Hperm).
  split.
  - pose proof (gaps_ends
        (λ t, t = day_start ∨
              ∃ b : interval, b ∈ busy_slots ∧ b.1 < t ∧ b.2 = t)
        (stable_sort tuple_le busy_slots) day_start day_end) as Hends.
    eapply Forall_impl; [apply Hends|].
    + by left.
    + rewrite Forall_forall in Hsorted |- *. intros b Hb.
      right. exists b. split; [by rewrite <- Hperm|].
      split; [by apply Hsorted|done].
    + intros sl [Hleft Hright]. split; [done|].
      destruct Hright as [?|(b & Hb & Hr)]; [by left|right].
      exists b. rewrite Forall_forall in Hsorted.
      pose proof (Hsorted b Hb). split; [by rewrite <- Hperm|]. lia.
  - eapply StronglySorted_impl; [|by apply gaps_busy_between].
    intros a b _ _ [Hab Hcov]. split; [done|].
    by rewrite <- (covered_perm _ _ _ Hperm).
Qed.

Lemma free_slots_never_touch_witness :
  Forall (λ sl : interval,
            (sl.1 = at_hour 8 ∨
             ∃ b : interval, b ∈ morning_busy ∧ b.1 < sl.1 ∧ b.2 = sl.1) ∧
            (sl.2 = at_hour 20 ∨
             ∃ b : interval, b ∈ morning_busy ∧ b.1 = sl.2 ∧ sl.2 < b.2))
         (compute_free_slots morning_busy (at_hour 8) (at_hour 20)) ∧
  StronglySorted (λ a b : interval, a.2 < b.1 ∧ covered a.2 morning_busy)
                 (compute_free_slots morning_busy (at_hour 8) (at_hour 20)).
Proof.
  apply (free_slots_never_touch morning_busy (at_hour 8) (at_hour 20)).
  repeat constructor; vm_compute; reflexivity.
Defined.

Lemma busy_slots_of_raises (fromisoformat : string → option Z)
    (events : list event) :
  busy_slots_of fromisoformat events = None
  ↔ Exists (λ e, timed e ∧ ¬ converts fromisoformat e) events.
Proof.
  induction events as [|e events IH]; simpl.
  - rewrite Exists_nil. done.
  - rewrite Exists_cons, <- IH. unfold timed, converts.
    destruct (truthy _ && truthy _);
      [|split; [by right|intros [[? _]|?]; done]].
    destruct (ev_start e !! "dateTime" ≫= _) as [s|]; simpl.
    2:{ split; [|done]. intros _. left. split; [done|].
        intros [[? ?] _]. done. }
    destruct (ev_end e !! "dateTime" ≫= _) as [f|]; simpl.
    2:{ split; [|done]. intros _. left. split; [done|].
        intros [_ [? ?]]. done. }
    destruct (busy_slots_of fromisoformat events); simpl.
    + split; [done|]. intros [[_ Hno]|Hex]; [|done].
      destruct Hno. split; eauto.
    + split; [|done]. intros _. by right.
Qed.

(** X6: [find_free_slots] raises exactly when some event that has both
    ['dateTime'] strings, none of them empty, has one that does not
    convert; events without them never make it raise, and the window
    plays no part. *)
Theorem find_free_slots_raises_iff (fromisoformat : string → option Z)
    (events : list event) (day_start day_end : Z) :
  find_free_slots fromisoformat events day_start day_end = None
  ↔ Exists (λ e, timed e ∧ ¬ converts fromisoformat e) events.
Proof.
  unfold find_free_slots. rewrite <- busy_slots_of_raises.
  by destruct (busy_slots_of fromisoformat events).
Qed.

(** X7: events without both ['dateTime'] strings are no busy time: when
    the calendar holds only such events (all-day events, say) and the
    window is not empty, the whole window is the one free slot. *)
Theorem untimed_events_leave_window_free (fromisoformat : string → option Z)
    (events : list event) (day_start day_end : Z) :
  Forall (λ e, ¬ has_dateTimes e) events →
  day_start < day_end →
  find_free_slots fromisoformat events day_start day_end
  = Some [(day_start, day_end)].
Proof.
  intros Hall Hlt. unfold find_free_slots.
  assert (busy_slots_of fromisoformat events = Some []) as ->.
  { induction Hall as [|e events He Hall IH]; [done|]. simpl.
    unfold has_dateTimes in He.
    destruct (ev_start e !! "dateTime") as [s|]; simpl; [|done].
    destruct (ev_end e !! "dateTime") as [s'|]; simpl.
    - destruct He. split; eauto.
    - by rewrite andb_false_r. }
  simpl. unfold compute_free_slots. simpl.
  destruct (day_start <? day_end) eqn:E; [done|lia].
Qed.

Lemma untimed_events_leave_window_free_witness :
  find_free_slots day_fromisoformat
    [all_day_event "2026-11-04" "2026-11-05"] (at_hour 8) (at_hour 20)
  = Some [(at_hour 8, at_hour 20)].
Proof.
  apply (untimed_events_leave_window_free day_fromisoformat
           [all_day_event "2026-11-04" "2026-11-05"] (at_hour 8) (at_hour 20)).
  - repeat constructor. intros [[s Hs] _]. vm_compute in Hs. discriminate.
  - reflexivity.
Defined.

(** ** The task store *)

Lemma list_index_Some {A} (l : list A) (index : Z) :
  - Z.of_nat (length l) ≤ index < Z.of_nat (length l)
  ↔ is_Some (list_index l index).
Proof.
  unfold list_index.
  destruct ((0 <=? index) && (index <? Z.of_nat (length l))) eqn:E1.
  { split; [eauto|lia]. }
  destruct ((- Z.of_nat (length l) <=? index) && (index <? 0)) eqn:E2.
  { split; [eauto|lia]. }
  split; [lia|]. by intros [? ?].
Qed.

Lemma list_index_last {A} (l : list A) (x : A) :
  list_index (l ++ [x]) (-1) = Some (length l).
Proof.
  unfold list_index. rewrite length_app. simpl.
  destruct (- Z.of_nat (length l + 1) <=? -1) eqn:E;
    [|apply Z.leb_gt in E; lia].
  simpl. f_equal. lia.
Qed.

(** X8: [add_task] puts the new task, not scheduled and not completed,
    behind the tasks there are and leaves those as they are; deleting
    the last task ([delete_task(-1)]) right after brings back the task
    list and the file of a store that was saved. *)
Theorem add_task_then_delete_last (w : state) (name : string) (p d : Z)
    (c : string) :
  tasks (add_task name p d c w) !! length (tasks w)
  = Some (mkTask name p d c false None None false) ∧
  length (tasks (add_task name p d c w)) = S (length (tasks w)) ∧
  (∀ i t, tasks w !! i = Some t → tasks (add_task name p d c w) !! i = Some t) ∧
  delete_task (-1) (add_task name p d c w) = Some (save_tasks w).
Proof.
  unfold add_task. simpl. split; [|split; [|split]].
  - by rewrite list_lookup_middle.
  - rewrite length_app. simpl. lia.
  - intros i t Hi. by apply lookup_app_l_Some.
  - unfold delete_task. simpl. rewrite list_index_last. simpl.
    unfold save_tasks, set_tasks. simpl.
    by rewrite (delete_middle (tasks w) []), app_nil_r.
Qed.

(** X9: [delete_task], [edit_task] and [toggle_task_completion] accept
    the indices from [-len] to [len - 1] and raise [IndexError] on every
    other index. *)
Theorem store_operations_index_range (w : state) (index : Z)
    (new_title : string) (new_priority new_duration : Z)
    (new_category : string) :
  let in_range := - Z.of_nat (length (tasks w)) ≤ index
                  < Z.of_nat (length (tasks w)) in
  (in_range ↔ is_Some (delete_task index w)) ∧
  (in_range ↔ is_Some (edit_task index new_title new_priority new_duration
                                 new_category w)) ∧
  (in_range ↔ is_Some (toggle_task_completion index w)).
Proof.
  simpl. rewrite (list_index_Some (tasks w) index).
  unfold delete_task, edit_task, toggle_task_completion.
  destruct (list_index (tasks w) index) as [i|] eqn:Hi; simpl.
  - apply list_index_lt in Hi.
    destruct (lookup_lt_is_Some_2 (tasks w) i Hi) as [t ->]. simpl.
    repeat split; eauto.
  - repeat split; intros [? ?]; done.
Qed.

(** X10: [delete_task] removes the task at the index and no other: the
    tasks before it keep their positions, the tasks behind it move up by
    one, and the settings, the calendar and the messages stay. *)
Theorem delete_task_removes_one (w : state) (index : Z) (i : nat) :
  list_index (tasks w) index = Some i →
  ∃ w', delete_task index w = Some w' ∧
        S (length (tasks w')) = length (tasks w) ∧
        (∀ j, (j < i)%nat → tasks w' !! j = tasks w !! j) ∧
        (∀ j, (i ≤ j)%nat → tasks w' !! j = tasks w !! S j) ∧
        day_start_hour w' = day_start_hour w ∧
        day_end_hour w' = day_end_hour w ∧
        buffer_minutes w' = buffer_minutes w ∧
        calendar_events w' = calendar_events w ∧
        shown w' = shown w.
Proof.
  intros Hidx. pose proof (list_index_lt _ _ _ Hidx) as Hlt.
  eexists. unfold delete_task. rewrite Hidx. simpl.
  split; [done|]. simpl.
  split; [rewrite length_delete by (by apply lookup_lt_is_Some_2); lia|].
  split; [intros j Hj; by apply list_lookup_delete_lt|].
  split; [intros j Hj; by apply list_lookup_delete_ge|done].
Qed.

Lemma delete_task_removes_one_witness :
  ∃ w', delete_task (-2) three_task_state = Some w' ∧
        S (length (tasks w')) = length (tasks three_task_state) ∧
        (∀ j, (j < 1)%nat → tasks w' !! j = tasks three_task_state !! j) ∧
        (∀ j, (1 ≤ j)%nat → tasks w' !! j = tasks three_task_state !! S j) ∧
        day_start_hour w' = day_start_hour three_task_state ∧
        day_end_hour w' = day_end_hour three_task_state ∧
        buffer_minutes w' = buffer_minutes three_task_state ∧
        calendar_events w' = calendar_events three_task_state ∧
        shown w' = shown three_task_state.
Proof.
  apply (delete_task_removes_one three_task_state (-2) 1). reflexivity.
Defined.

(** X11: [edit_task] replaces the title, the priority, the duration and
    the category of one task and nothing else: the task keeps its
    [scheduled], [start_time], [end_time] and [completed] fields, so a
    scheduled task whose duration is edited keeps the span it had
    reserved; every other task is as before. *)
Theorem edit_task_keeps_schedule (w : state) (index : Z) (i : nat)
    (new_title : string) (new_priority new_duration : Z)
    (new_category : string) :
  list_index (tasks w) index = Some i →
  ∃ t t' w',
    tasks w !! i = Some t ∧
    edit_task index new_title new_priority new_duration new_category w
      = Some w' ∧
    tasks w' !! i = Some t' ∧
    title t' = new_title ∧ priority t' = new_priority ∧
    duration t' = new_duration ∧ category t' = new_category ∧
    scheduled t' = scheduled t ∧ completed t' = completed t ∧
    start_time t' = start_time t ∧ end_time t' = end_time t ∧
    reserved t' = reserved t ∧
    length (tasks w') = length (tasks w) ∧
    (∀ j, j ≠ i → tasks w' !! j = tasks w !! j).
Proof.
  intros Hidx. pose proof (list_index_lt _ _ _ Hidx) as Hlt.
  destruct (lookup_lt_is_Some_2 (tasks w) i Hlt) as [t Ht].
  exists t, (set_details new_title new_priority new_duration new_category t).
  eexists. split; [done|]. split.
  { unfold edit_task. rewrite Hidx. simpl. rewrite Ht. done. }
  simpl. split; [by apply list_lookup_insert_eq|].
  repeat (split; [done|]).
  split; [apply length_insert|].
  intros j Hj. by apply list_lookup_insert_ne.
Qed.

Lemma edit_task_keeps_schedule_witness :
  ∃ t t' w',
    tasks three_task_state !! 0%nat = Some t ∧
    edit_task 0 "A2" 1 90 "Personal" three_task_state = Some w' ∧
    tasks w' !! 0%nat = Some t' ∧
    title t' = "A2" ∧ priority t' = 1 ∧
    duration t' = 90 ∧ category t' = "Personal" ∧
    scheduled t' = scheduled t ∧ completed t' = completed t ∧
    start_time t' = start_time t ∧ end_time t' = end_time t ∧
    reserved t' = reserved t ∧
    length (tasks w') = length (tasks three_task_state) ∧
    (∀ j, j ≠ 0%nat → tasks w' !! j = tasks three_task_state !! j).
Proof.
  apply (edit_task_keeps_schedule three_task_state 0 0 "A2" 1 90 "Personal").
  reflexivity.
Defined.

Lemma list_index_same_length {A} (l l' : list A) (index : Z) :
  length l = length l' → list_index l index = list_index l' index.
Proof. unfold list_index. by intros ->. Qed.

(** X12: toggling the same task twice brings back the task list: the
    second call succeeds whenever the first did, and the store after it
    holds the tasks it held at the start. *)
Theorem toggle_twice_restores (w w' : state) (index : Z) :
  toggle_task_completion index w = Some w' →
  ∃ w'', toggle_task_completion index w' = Some w'' ∧
         tasks w'' = tasks w ∧ tasks_file w'' = Some (tasks w).
Proof.
  unfold toggle_task_completion. intros H.
  destruct (list_index (tasks w) index) as [i|] eqn:Hidx; [|done].
  simpl in H. destruct (tasks w !! i) as [t|] eqn:Ht; [|done].
  simpl in H. injection H as <-. simpl.
  rewrite <- (list_index_same_length (tasks w)), Hidx
    by (by rewrite length_insert).
  simpl. rewrite list_lookup_insert_eq by (by eapply lookup_lt_Some).
  simpl. eexists. split; [done|]. simpl.
  split; [|f_equal];
    (rewrite list_insert_insert_eq; apply list_insert_id; rewrite Ht;
     f_equal; by destruct t as [? ? ? ? ? ? ? []]).
Qed.

Lemma toggle_twice_restores_witness :
  ∃ w'', toggle_task_completion 2
           (save_tasks
              (set_tasks (<[2%nat := set_completed true (new_task "C" 1 60)]>
                            (tasks three_task_state)) three_task_state))
         = Some w'' ∧
         tasks w'' = tasks three_task_state ∧
         tasks_file w'' = Some (tasks three_task_state).
Proof.
  apply (toggle_twice_restores three_task_state _ 2). reflexivity.
Defined.

(** X13: every store operation that returns writes the tasks file: after
    [add_task], [delete_task], [edit_task], [toggle_task_completion],
    the clear button and a [schedule_tasks] run on a calendar with
    events, the file holds the task list of the store.  The one
    exception is [schedule_tasks] on an empty calendar: it warns and
    returns before [save_tasks], so the store and the file are as they
    were. *)
Theorem operations_save_tasks (fromisoformat : string → option Z)
    (today : Z) (w : state) :
  (∀ name p d c,
     tasks_file (add_task name p d c w) = Some (tasks (add_task name p d c w))) ∧
  tasks_file (clear_all_tasks w) = Some [] ∧
  tasks (clear_all_tasks w) = [] ∧
  (∀ index w', delete_task index w = Some w' →
               tasks_file w' = Some (tasks w')) ∧
  (∀ index a b c d w', edit_task index a b c d w = Some w' →
                       tasks_file w' = Some (tasks w')) ∧
  (∀ index w', toggle_task_completion index w = Some w' →
               tasks_file w' = Some (tasks w')) ∧
  (∀ w', schedule_tasks fromisoformat today w = Some w' →
         if decide (calendar_events w = [])
         then tasks w' = tasks w ∧ tasks_file w' = tasks_file w ∧
              shown w' = shown w ++
                [Warning "No calendar events found to schedule around"]
         else tasks_file w' = Some (tasks w') ∧ shown w' = shown w).
Proof.
  split; [done|]. split; [done|]. split; [done|].
  split; [|split; [|split]].
  - intros index w'. unfold delete_task.
    destruct (list_index _ _); simpl; [|done]. by intros [= <-].
  - intros index a b c d w'. unfold edit_task.
    destruct (list_index _ _) as [i|]; simpl; [|done].
    destruct (tasks w !! i); simpl; [|done]. by intros [= <-].
  - intros index w'. unfold toggle_task_completion.
    destruct (list_index _ _) as [i|]; simpl; [|done].
    destruct (tasks w !! i); simpl; [|done]. by intros [= <-].
  - intros w'. unfold schedule_tasks.
    destruct (time_of_hour (day_start_hour w)); simpl; [|done].
    destruct (time_of_hour (day_end_hour w)); simpl; [|done].
    destruct (calendar_events w) as [|e evs]; simpl.
    + by intros [= <-].
    + destruct (find_free_slots _ _ _ _); simpl; [|done]. by intros [= <-].
Qed.

Lemma operations_save_tasks_witness :
  tasks_file (save_tasks (set_tasks (delete 1%nat (tasks three_task_state))
                                    three_task_state))
  = Some (delete 1%nat (tasks three_task_state)).
Proof.
  apply (proj1 (proj2 (proj2 (proj2
           (operations_save_tasks day_fromisoformat 0 three_task_state))))
         1).
  reflexivity.
Defined.

(** ** The packing run *)

Lemma kept_by_run_refl (t : task) : kept_by_run t t.
Proof. by repeat split. Qed.

Lemma kept_by_run_trans (t t' t'' : task) :
  kept_by_run t t' → kept_by_run t' t'' → kept_by_run t t''.
Proof.
  intros (H1 & H2 & H3 & H4 & H5 & H6 & H7) (G1 & G2 & G3 & G4 & G5 & G6 & G7).
  repeat split; try congruence.
  - intros Hs. rewrite <- (H6 Hs). apply G6. by rewrite (H6 Hs).
  - intros Hs. rewrite (G7 Hs). apply H7. by rewrite <- (G7 Hs).
Qed.

Lemma schedule_task_kept (bt : Z) (st : list task * list interval) (k : nat) :
  Forall2 kept_by_run st.1 (schedule_task bt st k).1.
Proof.
  assert (∀ l : list task, Forall2 kept_by_run l l) as Hrefl.
  { intros l. apply Forall_Forall2_diag, Forall_forall.
    intros t _. apply kept_by_run_refl. }
  destruct (schedule_task_tasks bt st k) as [->|(t & s & Hl & Hs & ->)];
    [apply Hrefl|].
  rewrite <- (list_insert_id st.1 k t Hl) at 1.
  apply Forall2_insert; [apply Hrefl|].
  repeat split; try done. rewrite Hs. done.
Qed.

Lemma foldl_schedule_task_kept (bt : Z) (l : list nat)
    (st : list task * list interval) :
  Forall2 kept_by_run st.1 (foldl (schedule_task bt) st l).1.
Proof.
  revert st. induction l as [|k l IH]; intros st; simpl.
  - apply Forall_Forall2_diag, Forall_forall.
    intros t _. apply kept_by_run_refl.
  - eapply Forall2_trans; [apply kept_by_run_trans| |apply IH].
    apply schedule_task_kept.
Qed.

(** X14: a run of [schedule_tasks] changes nothing but the [scheduled],
    [start_time] and [end_time] fields of tasks it schedules: the store
    keeps its length, every task keeps its title, priority, duration,
    category and [completed] flag, a task that was scheduled before and
    a task that is unscheduled after are the records they were, and the
    settings and the calendar are untouched. *)
Theorem schedule_tasks_frame (fromisoformat : string → option Z)
    (today : Z) (w w' : state) :
  schedule_tasks fromisoformat today w = Some w' →
  Forall2 kept_by_run (tasks w) (tasks w') ∧
  length (tasks w') = length (tasks w) ∧
  day_start_hour w' = day_start_hour w ∧
  day_end_hour w' = day_end_hour w ∧
  buffer_minutes w' = buffer_minutes w ∧
  calendar_events w' = calendar_events w.
Proof.
  unfold schedule_tasks.
  destruct (time_of_hour (day_start_hour w)); simpl; [|done].
  destruct (time_of_hour (day_end_hour w)); simpl; [|done].
  assert (∀ l : list task, Forall2 kept_by_run l l) as Hrefl.
  { intros l. apply Forall_Forall2_diag, Forall_forall.
    intros t _. apply kept_by_run_refl. }
  destruct (calendar_events w) as [|e evs] eqn:Hev; simpl.
  - intros [= <-]. simpl. by rewrite Hev.
  - destruct (find_free_slots _ _ _ _) as [free|]; simpl; [|done].
    intros [= <-]. simpl.
    assert (Forall2 kept_by_run (tasks w)
              (pack (tasks w) free (buffer_minutes w)).1) as Hkept.
    { apply (foldl_schedule_task_kept _ _ (tasks w, _)). }
    split; [done|]. split; [symmetry; by eapply Forall2_length|].
    by rewrite Hev.
Qed.

Lemma schedule_tasks_frame_witness :
  Forall2 kept_by_run (tasks two_new_state) (tasks two_new_result) ∧
  length (tasks two_new_result) = length (tasks two_new_state) ∧
  day_start_hour two_new_result = day_start_hour two_new_state ∧
  day_end_hour two_new_result = day_end_hour two_new_state ∧
  buffer_minutes two_new_result = buffer_minutes two_new_state ∧
  calendar_events two_new_result = calendar_events two_new_state.
Proof.
  apply (schedule_tasks_frame day_fromisoformat 0).
  vm_compute. reflexivity.
Defined.

Lemma schedule_task_within (slots0 : list interval) (bt : Z)
    (ts0 : list task) (st : list task * list interval) (k : nat) :
  Forall (λ t, 0 ≤ timedelta_minutes (duration t) + bt) ts0 →
  run_within slots0 ts0 st → run_within slots0 ts0 (schedule_task bt st k).
Proof.
  intros Hpos Hinv. destruct st as [ts slots].
  destruct (schedule_task_cases bt ts slots k)
    as [->|(t & i & s & e & Hl & Hsched & Hi & Hfit & ->)]; [done|].
  destruct Hinv as (Hslots & Hres & Hun). cbn [fst snd] in *.
  set (d := timedelta_minutes (duration t) + bt) in *.
  assert (0 ≤ d) as Hd.
  { rewrite Forall_forall in Hpos. apply (Hpos t).
    eapply list_elem_of_lookup_2. by apply Hun. }
  unfold fits in Hfit. simpl in Hfit.
  destruct (Forall_lookup_1 _ _ _ _ Hslots Hi) as (sl0 & Hsl0 & Hin0 & Hin0').
  simpl in Hin0, Hin0'.
  unfold run_within. cbn [fst snd]. split; [|split].
  - apply Forall_consumed; [done| |done].
    intros _. exists sl0. split; [done|]. unfold inside. simpl. lia.
  - intros j r Hr.
    apply (scheduled_by_run_insert _ _ _ _ _ _ _ _ Hl) in Hr
      as [[-> ->]|[Hne Hr]]; [|by eapply Hres].
    exists sl0. split; [done|]. unfold inside. simpl. lia.
  - intros j u Hj Hu. destruct (decide (j = k)) as [->|Hne].
    + rewrite list_lookup_insert_eq in Hj by (by eapply lookup_lt_Some).
      by injection Hj as <-.
    + rewrite list_lookup_insert_ne in Hj by done. by apply Hun.
Qed.

Lemma pack_within (ts : list task) (slots : list interval) (buffer : Z) :
  Forall (λ t, 0 ≤ duration t + buffer) ts →
  run_within slots ts (pack ts slots buffer).
Proof.
  intros Hpos. unfold pack.
  assert (Forall (λ t, 0 ≤ timedelta_minutes (duration t)
                       + timedelta_minutes buffer) ts) as Hpos'.
  { eapply Forall_impl; [exact Hpos|].
    intros t Ht. simpl in Ht. unfold timedelta_minutes. lia. }
  assert (run_within slots ts (ts, stable_sort wider_first slots)) as Hstart.
  { split; [|split]; cbn [fst snd].
    - rewrite Forall_forall. intros sl Hsl. exists sl.
      rewrite stable_sort_perm in Hsl. by split.
    - intros k r Hr. by apply scheduled_by_run_same in Hr.
    - done. }
  generalize dependent (ts, stable_sort wider_first slots).
  induction (get_prioritized_tasks ts) as [|k l IH]; intros st Hst; [done|].
  simpl. apply IH. by apply schedule_task_within.
Qed.

(** X15: a run of [schedule_tasks] over tasks with
    [duration + buffer >= 0] places every task it schedules inside one
    of the free slots that [find_free_slots] computed; so no task is
    scheduled to start before the start of the day window, and when no
    busy interval starts after the end of the window none is scheduled
    to end after it. *)
Theorem scheduled_inside_free_slot (fromisoformat : string → option Z)
    (today : Z) (w w' : state) (busy : list interval) (k : nat)
    (r : interval) :
  schedule_tasks fromisoformat today w = Some w' →
  busy_slots_of fromisoformat (calendar_events w) = Some busy →
  Forall (λ t, 0 ≤ duration t + buffer_minutes w) (tasks w) →
  scheduled_by_run (tasks w) (tasks w') k r →
  let day_start := today + timedelta_hours (day_start_hour w) in
  let day_end := today + timedelta_hours (day_end_hour w) in
  (∃ sl, sl ∈ compute_free_slots busy day_start day_end ∧ inside r sl) ∧
  day_start ≤ r.1 ∧
  (Forall (λ b : interval, b.1 ≤ day_end) busy → r.2 ≤ day_end).
Proof.
  intros Hrun Hbusy_of Hpos Hr. unfold schedule_tasks, time_of_hour in Hrun.
  destruct ((0 <=? day_start_hour w) && _); [|done].
  destruct ((0 <=? day_end_hour w) && _); [|done].
  simpl in Hrun. destruct (calendar_events w) as [|ev evs] eqn:Hev.
  { injection Hrun as <-. simpl in Hr. by apply scheduled_by_run_same in Hr. }
  unfold find_free_slots in Hrun. rewrite Hbusy_of in Hrun.
  simpl in Hrun. injection Hrun as <-. simpl in Hr. simpl.
  destruct (pack_within (tasks w)
              (compute_free_slots busy
                 (today + timedelta_hours (day_start_hour w))
                 (today + timedelta_hours (day_end_hour w)))
              (buffer_minutes w) Hpos) as (_ & Hin & _).
  destruct (Hin k r Hr) as (sl & Hsl & Hlow & Hup).
  assert (today + timedelta_hours (day_start_hour w) ≤ sl.1) as Hstart.
  { rewrite compute_free_slots_gaps in Hsl.
    pose proof (gaps_apart_busy (stable_sort tuple_le busy)
                  (today + timedelta_hours (day_start_hour w))
                  (today + timedelta_hours (day_end_hour w))
                  (sort_busy_by_start busy)) as Hlow'.
    rewrite Forall_forall in Hlow'. by apply Hlow'. }
  split; [exists sl; by repeat split|]. split; [lia|].
  intros Hde.
  assert (sl.2 ≤ today + timedelta_hours (day_end_hour w)); [|lia].
  rewrite compute_free_slots_gaps in Hsl.
  assert (Forall (λ sl : interval,
                    sl.2 ≤ today + timedelta_hours (day_end_hour w))
            (gaps (stable_sort tuple_le busy)
                  (today + timedelta_hours (day_start_hour w))
                  (today + timedelta_hours (day_end_hour w)))) as Hup'.
  { apply gaps_upper. by rewrite stable_sort_perm. }
  rewrite Forall_forall in Hup'. by apply Hup'.
Qed.

Lemma scheduled_inside_free_slot_witness :
  (∃ sl, sl ∈ compute_free_slots [(at_hour 12, at_hour 13)]
                (0 + timedelta_hours 8) (0 + timedelta_hours 20) ∧
         inside (at_hour 13, at_hour 13 + timedelta_minutes 35) sl) ∧
  0 + timedelta_hours 8 ≤ at_hour 13 ∧
  (Forall (λ b : interval, b.1 ≤ 0 + timedelta_hours 20)
          [(at_hour 12, at_hour 13)] →
   at_hour 13 + timedelta_minutes 35 ≤ 0 + timedelta_hours 20).
Proof.
  apply (scheduled_inside_free_slot day_fromisoformat 0
           two_new_state two_new_result [(at_hour 12, at_hour 13)] 0
           (at_hour 13, at_hour 13 + timedelta_minutes 35)).
  - vm_compute. reflexivity.
  - vm_compute. reflexivity.
  - repeat constructor; vm_compute; discriminate.
  - exists (new_task "A" 1 30),
      (set_schedule (at_hour 13) (at_hour 13 + timedelta_minutes 35)
                    (new_task "A" 1 30)).
    repeat split; reflexivity.
Defined.

Lemma schedule_task_positive (bt : Z) (st : list task * list interval)
    (k : nat) :
  Forall (λ t, 0 ≤ timedelta_minutes (duration t) + bt) st.1 →
  Forall (λ t, 0 ≤ timedelta_minutes (duration t) + bt)
         (schedule_task bt st k).1.
Proof.
  intros Hpos.
  destruct (schedule_task_tasks bt st k) as [->|(t & s & Hl & Hs & ->)];
    [done|].
  apply Forall_insert; [done|]. simpl.
  by apply (Forall_lookup_1 _ _ _ _ Hpos Hl).
Qed.

(** Slots only shrink: a reservation that fits no slot now fits no slot
    after a further iteration. *)
Lemma schedule_task_narrow (bt d : Z) (st : list task * list interval)
    (k : nat) :
  Forall (λ t, 0 ≤ timedelta_minutes (duration t) + bt) st.1 →
  Forall (λ sl, ¬ fits d sl) st.2 →
  Forall (λ sl, ¬ fits d sl) (schedule_task bt st k).2.
Proof.
  intros Hpos Hnarrow. destruct st as [ts slots].
  destruct (schedule_task_cases bt ts slots k)
    as [->|(t & i & s & e & Hl & Hsched & Hi & Hfit & ->)]; [done|].
  cbn [fst snd] in *.
  apply Forall_consumed; [done| |done].
  pose proof (Forall_lookup_1 _ _ _ _ Hpos Hl) as Hd. simpl in Hd.
  unfold fits. simpl. lia.
Qed.

Lemma foldl_schedule_task_narrow (bt d : Z) (l : list nat)
    (st : list task * list interval) :
  Forall (λ t, 0 ≤ timedelta_minutes (duration t) + bt) st.1 →
  Forall (λ sl, ¬ fits d sl) st.2 →
  Forall (λ sl, ¬ fits d sl) (foldl (schedule_task bt) st l).2.
Proof.
  revert st. induction l as [|k l IH]; intros st Hpos Hnarrow; [done|].
  simpl. apply IH; [by apply schedule_task_positive|].
  by apply schedule_task_narrow.
Qed.

Lemma foldl_schedule_task_unscheduled (bt : Z) (l : list nat)
    (st : list task * list interval) (k : nat) (t : task) :
  (foldl (schedule_task bt) st l).1 !! k = Some t → scheduled t = false →
  st.1 !! k = Some t.
Proof.
  intros Hl Hs.
  destruct (Forall2_lookup_r _ _ _ _ _ (foldl_schedule_task_kept bt l st) Hl)
    as (t0 & Hl0 & Hkept).
  destruct Hkept as (_ & _ & _ & _ & _ & _ & Hsame). by rewrite (Hsame Hs).
Qed.

Lemma schedule_task_nofit (bt : Z) (ts : list task) (slots : list interval)
    (k : nat) (t : task) :
  ts !! k = Some t →
  first_fit (timedelta_minutes (duration t) + bt) slots = None →
  schedule_task bt (ts, slots) k = (ts, slots).
Proof.
  intros Hl Hfit. unfold schedule_task, place_task. cbn [fst].
  rewrite Hl, Hfit. by destruct (scheduled t).
Qed.

Lemma schedule_task_fit (bt : Z) (ts : list task) (slots : list interval)
    (k : nat) (t : task) :
  ts !! k = Some t → scheduled t = false →
  is_Some (first_fit (timedelta_minutes (duration t) + bt) slots) →
  ∃ t', (schedule_task bt (ts, slots) k).1 !! k = Some t' ∧
        scheduled t' = true.
Proof.
  intros Hl Hs [[i [s e]] Hfit]. unfold schedule_task, place_task. cbn [fst].
  rewrite Hl, Hs, Hfit. cbn [fst].
  rewrite list_lookup_insert_eq by (by eapply lookup_lt_Some). eauto.
Qed.

Lemma foldl_schedule_task_unplaced (bt : Z) (l : list nat)
    (st : list task * list interval) (k : nat) (t : task) :
  Forall (λ t, 0 ≤ timedelta_minutes (duration t) + bt) st.1 →
  k ∈ l →
  (foldl (schedule_task bt) st l).1 !! k = Some t → scheduled t = false →
  Forall (λ sl, ¬ fits (timedelta_minutes (duration t) + bt) sl)
         (foldl (schedule_task bt) st l).2.
Proof.
  revert st. induction l as [|j l IH]; intros st Hpos Hin Hl Hs.
  { by apply elem_of_nil in Hin. }
  simpl in *. destruct (decide (k = j)) as [->|Hne].
  - pose proof (foldl_schedule_task_unscheduled _ _ _ _ _ Hl Hs) as Hl'.
    pose proof (foldl_schedule_task_unscheduled bt (j :: l) st j t Hl Hs)
      as Hl0.
    destruct st as [ts slots]. cbn [fst] in Hl0, Hpos.
    destruct (first_fit (timedelta_minutes (duration t) + bt) slots)
      as [p|] eqn:Hfit.
    + destruct (schedule_task_fit bt ts slots j t Hl0 Hs) as (t' & Ht' & Hs');
        [by rewrite Hfit|].
      congruence.
    + rewrite (schedule_task_nofit bt ts slots j t Hl0 Hfit).
      apply foldl_schedule_task_narrow; [done|].
      by apply first_fit_None.
  - apply IH; [by apply schedule_task_positive| |done..].
    apply elem_of_cons in Hin as [?|?]; done.
Qed.

(** X16: the packer gives up on a task only when there is no room left
    for it: after a run over tasks with [duration + buffer >= 0], an
    uncompleted task that is still unscheduled fits none of the
    remaining free slots. *)
Theorem unscheduled_task_fits_no_slot (ts : list task)
    (slots : list interval) (buffer : Z) (k : nat) (t : task) :
  Forall (λ t, 0 ≤ duration t + buffer) ts →
  (pack ts slots buffer).1 !! k = Some t →
  completed t = false → scheduled t = false →
  ts !! k = Some t ∧
  Forall (λ sl, ¬ fits (timedelta_minutes (duration t + buffer)) sl)
         (pack ts slots buffer).2.
Proof.
  intros Hpos Hl Hc Hs. unfold pack in *.
  pose proof (foldl_schedule_task_unscheduled _ _ _ _ _ Hl Hs) as Hl0.
  cbn [fst] in Hl0. split; [done|].
  rewrite <- timedelta_minutes_add.
  apply (foldl_schedule_task_unplaced _ _ _ k); [| |done..].
  - eapply Forall_impl; [exact Hpos|].
    intros u Hu. simpl in Hu. unfold timedelta_minutes. lia.
  - apply get_prioritized_tasks_elem. eauto.
Qed.

Lemma unscheduled_task_fits_no_slot_witness :
  twin_tasks !! 1%nat = Some (new_task "second" 1 30) ∧
  Forall (λ sl, ¬ fits (timedelta_minutes (30 + 5)) sl)
         (pack twin_tasks [(at_hour 8, at_hour 9)] 5).2.
Proof.
  apply (unscheduled_task_fits_no_slot twin_tasks [(at_hour 8, at_hour 9)] 5
           1 (new_task "second" 1 30)).
  - repeat constructor; vm_compute; discriminate.
  - vm_compute. reflexivity.
  - reflexivity.
  - reflexivity.
Defined.



(** ** Productivity figures *)

Lemma sum_durations_cons (keep : task → bool) (t : task) (l : list task) :
  sum_durations keep (t :: l)
  = (if keep t then duration t else 0) + sum_durations keep l.
Proof.
  unfold sum_durations. rewrite filter_cons.
  destruct (decide (keep t = true)) as [H|H].
  - by rewrite H.
  - by rewrite (not_true_is_false _ H).
Qed.

Lemma sum_durations_insert (keep : task → bool) (l : list task) (i : nat)
    (t t' : task) :
  l !! i = Some t →
  sum_durations keep (<[i := t']> l)
  = sum_durations keep l - (if keep t then duration t else 0)
    + (if keep t' then duration t' else 0).
Proof.
  revert i. induction l as [|x l IH]; intros [|i] Hl; simpl in *; try done.
  - injection Hl as ->. rewrite !sum_durations_cons. lia.
  - rewrite !sum_durations_cons, (IH i Hl). lia.
Qed.

(** X18: of the two whole-number figures of [calculate_productivity],
    toggling a task moves the actual time by exactly that task's
    duration, up when the task becomes completed and down when it
    becomes uncompleted, and leaves the planned time as it is. *)
Theorem toggle_moves_actual_time (w w' : state) (index : Z) (i : nat)
    (t : task) :
  list_index (tasks w) index = Some i → tasks w !! i = Some t →
  toggle_task_completion index w = Some w' →
  actual_time (tasks w')
  = actual_time (tasks w)
    + (if completed t then - duration t else duration t) ∧
  total_planned_time (tasks w') = total_planned_time (tasks w).
Proof.
  intros Hidx Hl. unfold toggle_task_completion. rewrite Hidx. simpl.
  rewrite Hl. simpl. intros [= <-]. simpl.
  unfold actual_time, total_planned_time.
  rewrite !(sum_durations_insert _ _ _ t) by done. simpl.
  destruct (completed t), (scheduled t); simpl; lia.
Qed.

Lemma toggle_moves_actual_time_witness :
  actual_time (<[1%nat := set_completed false
                            (mkTask "B" 3 45 "Health" false None None true)]>
                 (tasks three_task_state))
  = actual_time (tasks three_task_state) + - 45 ∧
  total_planned_time
    (<[1%nat := set_completed false
                  (mkTask "B" 3 45 "Health" false None None true)]>
       (tasks three_task_state))
  = total_planned_time (tasks three_task_state).
Proof.
  apply (toggle_moves_actual_time three_task_state
           (save_tasks
              (set_tasks
                 (<[1%nat := set_completed false
                      (mkTask "B" 3 45 "Health" false None None true)]>
                    (tasks three_task_state)) three_task_state))
           1 1 (mkTask "B" 3 45 "Health" false None None true));
    reflexivity.
Defined.

(** ** The row buttons *)

Lemma get_prioritized_tasks_length (ts : list task) :
  (length (get_prioritized_tasks ts) ≤ length ts)%nat.
Proof.
  unfold get_prioritized_tasks.
  rewrite length_fmap, stable_sort_length.
  etrans; [apply length_filter|]. by rewrite length_imap.
Qed.

Lemma list_index_of_nat {A} (l : list A) (i : nat) :
  (i < length l)%nat → list_index l (Z.of_nat i) = Some i.
Proof.
  intros Hi. unfold list_index.
  destruct (0 <=? Z.of_nat i) eqn:E1; [|apply Z.leb_gt in E1; lia].
  destruct (Z.of_nat i <? Z.of_nat (length l)) eqn:E2;
    [|apply Z.ltb_ge in E2; lia].
  simpl. f_equal. lia.
Qed.

(** X19: the buttons of a row of the task list act on the store position
    equal to the row number, not on the task the row shows.  Row [idx]
    shows the task at store position [k]; its complete button toggles
    the task at position [idx] and its delete button removes the task at
    position [idx]; when [k] differs from [idx] the task shown is left
    as it was by the complete button, and is still in the store after
    the delete button. *)
Theorem row_buttons_act_on_row_number (w : state) (idx k : nat) :
  get_prioritized_tasks (tasks w) !! idx = Some k →
  ∃ t shown_task,
    tasks w !! idx = Some t ∧ tasks w !! k = Some shown_task ∧
    completed shown_task = false ∧
    click_complete idx w
    = Some (save_tasks
              (set_tasks (<[idx := set_completed (negb (completed t)) t]>
                            (tasks w)) w)) ∧
    click_delete idx w
    = Some (save_tasks (set_tasks (delete idx (tasks w)) w)) ∧
    (k ≠ idx →
     <[idx := set_completed (negb (completed t)) t]> (tasks w) !! k
     = Some shown_task ∧
     shown_task ∈ delete idx (tasks w)).
Proof.
  intros Hrow. pose proof (lookup_lt_Some _ _ _ Hrow) as Hidx.
  pose proof (get_prioritized_tasks_length (tasks w)) as Hlen.
  assert (idx < length (tasks w))%nat as Hidx' by lia.
  destruct (lookup_lt_is_Some_2 (tasks w) idx Hidx') as [t Ht].
  assert (k ∈ get_prioritized_tasks (tasks w)) as Hk
    by (by eapply list_elem_of_lookup_2).
  apply get_prioritized_tasks_elem in Hk as (u & Hu & Hc).
  exists t, u. split; [done|]. split; [done|]. split; [done|].
  unfold click_complete, click_delete.
  destruct (decide (idx < length (get_prioritized_tasks (tasks w)))%nat);
    [|done].
  unfold toggle_task_completion, delete_task.
  rewrite (list_index_of_nat _ _ Hidx'). simpl. rewrite Ht. simpl.
  split; [done|]. split; [done|].
  intros Hne. split; [by rewrite list_lookup_insert_ne|].
  apply list_elem_of_lookup.
  destruct (decide (k < idx)%nat) as [Hlt|Hge].
  - exists k. by rewrite list_lookup_delete_lt.
  - exists (pred k). rewrite list_lookup_delete_ge by lia.
    replace (S (pred k)) with k by lia. done.
Qed.

Lemma row_buttons_act_on_row_number_witness :
  ∃ t shown_task,
    tasks three_task_state !! 0%nat = Some t ∧
    tasks three_task_state !! 2%nat = Some shown_task ∧
    completed shown_task = false ∧
    click_complete 0 three_task_state
    = Some (save_tasks
              (set_tasks (<[0%nat := set_completed (negb (completed t)) t]>
                            (tasks three_task_state)) three_task_state)) ∧
    click_delete 0 three_task_state
    = Some (save_tasks (set_tasks (delete 0%nat (tasks three_task_state))
                                  three_task_state)) ∧
    (2%nat ≠ 0%nat →
     <[0%nat := set_completed (negb (completed t)) t]>
       (tasks three_task_state) !! 2%nat
     = Some shown_task ∧
     shown_task ∈ delete 0%nat (tasks three_task_state)).
Proof.
  apply (row_buttons_act_on_row_number three_task_state 0 2). reflexivity.
Defined.

(** ** Free time is conserved *)

Lemma total_width_app (l1 l2 : list interval) :
  total_width (l1 ++ l2) = total_width l1 + total_width l2.
Proof.
  unfold total_width. induction l1 as [|a l1 IH]; [done|].
  rewrite <- app_comm_cons, !fmap_cons. cbn [foldr]. rewrite IH. lia.
Qed.

Lemma total_width_perm (l l' : list interval) :
  l ≡ₚ l' → total_width l = total_width l'.
Proof.
  unfold total_width.
  induction 1 as [|a l l' _ IH|a b l|l l' l'' _ IH1 _ IH2];
    rewrite ?fmap_cons; cbn [foldr]; lia.
Qed.

Lemma handed_out_same (ts : list task) : handed_out ts ts = 0.
Proof.
  unfold handed_out. induction ts as [|t ts IH]; simpl; [done|].
  rewrite IH. unfold handed_to. by destruct (scheduled t).
Qed.

Lemma handed_out_insert (before after : list task) (k : nat)
    (t0 t t' : task) :
  before !! k = Some t0 → after !! k = Some t →
  handed_out before (<[k := t']> after)
  = handed_out before after - handed_to t0 t + handed_to t0 t'.
Proof.
  unfold handed_out. revert after k.
  induction before as [|x before IH]; intros [|y after] [|k] H0 H1;
    simpl in *; try done.
  - injection H0 as ->. injection H1 as ->. lia.
  - rewrite (IH after k H0 H1). lia.
Qed.

Lemma schedule_task_conserves (bt : Z) (ts0 : list task)
    (st : list task * list interval) (k : nat) :
  Forall2 kept_by_run ts0 st.1 →
  total_width (schedule_task bt st k).2
  + handed_out ts0 (schedule_task bt st k).1
  = total_width st.2 + handed_out ts0 st.1.
Proof.
  intros Hkept. destruct st as [ts slots].
  destruct (schedule_task_cases bt ts slots k)
    as [->|(t & i & s & e & Hl & Hsched & Hi & Hfit & ->)]; [done|].
  cbn [fst snd] in *.
  set (d := timedelta_minutes (duration t) + bt) in *.
  unfold fits in Hfit. simpl in Hfit.
  destruct (Forall2_lookup_r _ _ _ _ _ Hkept Hl) as (t0 & Hl0 & Hk).
  destruct Hk as (_ & _ & _ & _ & _ & _ & Hsame).
  specialize (Hsame Hsched). subst t0.
  rewrite (handed_out_insert ts0 ts k t t _ Hl0 Hl).
  rewrite <- (take_drop_middle slots i (s, e) Hi) at 3.
  rewrite !total_width_app.
  unfold handed_to. rewrite Hsched. simpl.
  change (total_width ((s, e) :: drop (S i) slots))
    with (e - s + total_width (drop (S i) slots)).
  destruct (s + d >=? e) eqn:E; unfold total_width, width; simpl; lia.
Qed.

(** X20: packing neither loses nor invents free time: after a run, the
    total width of the free slots left plus the widths of the spans
    reserved by the tasks the run scheduled is the total width of the
    free slots the run was given. *)
Theorem pack_conserves_free_time (ts : list task) (slots : list interval)
    (buffer : Z) :
  total_width (pack ts slots buffer).2 + handed_out ts (pack ts slots buffer).1
  = total_width slots.
Proof.
  unfold pack.
  assert (∀ l st, Forall2 kept_by_run ts st.1 →
            total_width (foldl (schedule_task (timedelta_minutes buffer)) st l).2
            + handed_out ts
                (foldl (schedule_task (timedelta_minutes buffer)) st l).1
            = total_width st.2 + handed_out ts st.1) as Hfold.
  { induction l as [|k l IH]; intros st Hkept; [done|]. simpl.
    rewrite IH.
    - by apply schedule_task_conserves.
    - eapply Forall2_trans; [apply kept_by_run_trans|exact Hkept|].
      apply schedule_task_kept. }
  rewrite Hfold.
  - cbn [fst snd]. rewrite handed_out_same.
    rewrite (total_width_perm _ _ (stable_sort_perm wider_first slots)). lia.
  - apply Forall_Forall2_diag, Forall_forall.
    intros t _. apply kept_by_run_refl.
Qed.

Example pack_conserves_free_time_abc :
  total_width (pack abc_tasks [(at_hour 8, at_hour 10)] 0).2 = 0 ∧
  handed_out abc_tasks (pack abc_tasks [(at_hour 8, at_hour 10)] 0).1
  = timedelta_minutes 120.
Proof. split; by vm_compute. Qed.
